(** * cowhand: the maintainers/index consistency check of [main.go]

    A shallow embedding of [validateMaintainersFile] and of the two decoders
    it calls, followed by the properties of the checker.

    - Go strings are byte strings: [string].
    - [map[string]struct{}] is a [gset string], [map[string]interface{}] a
      [gmap string any]; a [nil] map and an empty map behave alike under
      [len], [range], lookup and [delete], both are [∅].
    - A pointer is an [option]: [None] is [nil], and a field access through
      [nil] panics.
    - Every [fmt] call of [validateMaintainersFile] is one constructor of
      [Line], carrying the operands of the call; [render] gives its text.
    - The order in which [range] visits the keys of a map is chosen by the Go
      runtime; it is the parameter [MapOrder] of the embedding. *)

From Stdlib Require Import String Ascii.
From stdpp Require Import gmap strings list fin_maps.

Local Open Scope string_scope.
Local Open Scope list_scope.
Local Open Scope nat_scope.
#[local] Set Warnings "-register-all".

(** ** Data model (main.go, lines 12-33) *)

Module Contact.
Record t := mk { Email : string; SlackChannel : string; URL : string }.
End Contact.

Module Chart.
Record t := mk { Name : string; GenerateIssue : bool; GithubLabels : list string }.
End Chart.

Module Maintainer.
Record t := mk { Name : string; Contact : Contact.t; Charts : list Chart.t }.
End Maintainer.

(** [type Maintainers []*Maintainer]: a slice of pointers, each possibly nil. *)
Definition Maintainers := list (option Maintainer.t).

(** What yaml.v3 stores in an [interface{}] target.  The checker never looks
    inside an entry, only at the keys. *)
Inductive any :=
| YNull
| YBool (b : bool)
| YInt (z : Z)
| YString (s : string)
| YSeq (items : list any)
| YMap (fields : list (string * any)).

Module IndexFile.
Record t := mk { Entries : gmap string any }.
End IndexFile.

(** A slice of maintainer records, none of them nil. *)
Definition records (ms : list Maintainer.t) : Maintainers := Some <$> ms.

(** All chart declarations of a registry, maintainers in input order and the
    charts of a maintainer in input order. *)
Definition declarations (ms : list Maintainer.t) : list Chart.t :=
  flat_map Maintainer.Charts ms.

Definition declaredNames (ms : list Maintainer.t) : list string :=
  Chart.Name <$> declarations ms.

(** ** Decoders (main.go, lines 98-130)

    [os.Open], [io.ReadAll] and [yaml.Unmarshal] are the environment: a
    [Disk] says, for each path, what opening and decoding the file there
    gives. *)

Definition error := string.

Inductive Document (A : Type) :=
| Parsed (a : A)
| Unreadable (err : error).
Arguments Parsed {A} a.
Arguments Unreadable {A} err.

Record Disk := {
  maintainersAt : string -> Document Maintainers;
  indexAt : string -> Document IndexFile.t
}.

(** Returns [(nil, err)] on failure and [(maintainers, nil)] otherwise. *)
Definition decodeMaintainersFile (disk : Disk) (path : string)
  : Maintainers * option error :=
  match maintainersAt disk path with
  | Unreadable err => ([], Some err)
  | Parsed maintainers => (maintainers, None)
  end.

(** Returns [(nil, err)] on failure and [(&index, nil)] otherwise. *)
Definition decodeIndexFile (disk : Disk) (path : string)
  : option IndexFile.t * option error :=
  match indexAt disk path with
  | Unreadable err => (None, Some err)
  | Parsed index => (Some index, None)
  end.

(** ** Output *)

(** One constructor per printing statement of [validateMaintainersFile]. *)
Inductive Line :=
| PrintErr (err : error)                               (* lines 46 and 77 *)
| InvalidCrdIssueFlag (chart : string) (flag : bool)   (* line 55 *)
| DuplicateLabel (chart label : string)                (* line 61 *)
| DuplicateChartOwnership (chart : string)             (* line 68 *)
| EmptyIndex (path : string)                           (* line 80 *)
| MissingFromMaintainers (chart path : string)         (* line 85 *)
| MissingFromIndex (chart path : string).              (* line 91 *)

#[global] Instance Line_eq_dec : EqDecision Line.
Proof. solve_decision. Defined.

Inductive Kind :=
| KPrintErr
| KInvalidCrdIssueFlag
| KDuplicateLabel
| KDuplicateChartOwnership
| KEmptyIndex
| KMissingFromMaintainers
| KMissingFromIndex.

#[global] Instance Kind_eq_dec : EqDecision Kind.
Proof. solve_decision. Defined.

Definition kind (l : Line) : Kind :=
  match l with
  | PrintErr _ => KPrintErr
  | InvalidCrdIssueFlag _ _ => KInvalidCrdIssueFlag
  | DuplicateLabel _ _ => KDuplicateLabel
  | DuplicateChartOwnership _ => KDuplicateChartOwnership
  | EmptyIndex _ => KEmptyIndex
  | MissingFromMaintainers _ _ => KMissingFromMaintainers
  | MissingFromIndex _ _ => KMissingFromIndex
  end.

(** The lines of one kind, in the order they were printed. *)
Definition ofKind (k : Kind) (out : list Line) : list Line :=
  filter (λ l, kind l = k) out.

(** The three checks made per chart declaration. *)
Definition perChart (l : Line) : bool :=
  match l with
  | InvalidCrdIssueFlag _ _ | DuplicateLabel _ _ | DuplicateChartOwnership _ => true
  | _ => false
  end.


Definition newline : string := String (ascii_of_nat 10) EmptyString.

(** The text written to standard output.  Line 80 hands a format string to
    [fmt.Println], which formats nothing: the verb stays as it is and the
    path follows after a space. *)
Definition render (l : Line) : string :=
  (match l with
  | PrintErr err => err ++ newline
  | InvalidCrdIssueFlag chart flag =>
      "error: crd chart [" ++ chart ++ "] has field [generateIssue: "
      ++ (if flag then "true" else "false")
      ++ "] which is incorrect as crd charts are not tracked in issues separately "
      ++ newline
  | DuplicateLabel chart label =>
      "error: chart [" ++ chart ++ "] has duplicate label [" ++ label ++ "]" ++ newline
  | DuplicateChartOwnership chart =>
      "error: chart [" ++ chart
      ++ "] is a duplicate or wrongly set as maintained by more than one team" ++ newline
  | EmptyIndex path =>
      "error: index file [%s] has no chart entries " ++ path ++ newline
  | MissingFromMaintainers chart path =>
      "error: chart [" ++ chart ++ "] is missing from maintainers file [" ++ path ++ "]"
      ++ newline
  | MissingFromIndex chart path =>
      "error: chart [" ++ chart ++ "] does not exist in index file [" ++ path ++ "]"
      ++ newline
  end)%string.

(** How a call ends: it returns its [error], or it panics.  Either way the
    lines printed so far are on standard output. *)
Inductive Outcome :=
| Returned (out : list Line) (err : option error)
| Panicked (out : list Line).

Definition stdout (o : Outcome) : list Line :=
  match o with
  | Returned out _ => out
  | Panicked out => out
  end.


(** ** Go runtime *)

(** [strings.HasSuffix]:
    [len(s) >= len(suffix) && s[len(s)-len(suffix):] == suffix]. *)
Definition HasSuffix (s suffix : string) : bool :=
  (String.length suffix <=? String.length s)
  && String.eqb
       (String.substring (String.length s - String.length suffix)
          (String.length suffix) s)
       suffix.

(** The order in which a [range] over a map visits its keys: each key once,
    in an order of the runtime's choosing.  [site] tells the two [range]
    statements over maps apart (0: line 83, 1: line 89). *)
Record MapOrder := {
  rangeKeys : nat -> gset string -> list string;
  rangeKeys_perm : forall site keys, rangeKeys site keys ≡ₚ elements keys
}.

(** ** validateMaintainersFile (main.go, lines 43-96) *)

(** Lines 58-64, with [duplicateLabels] as it stands on entry. *)
Fixpoint rangeGithubLabels (chartName : string) (labels : list string)
    (duplicateLabels : gset string) : list Line :=
  match labels with
  | [] => []
  | label :: rest =>
      (if decide (label ∈ duplicateLabels)
       then [DuplicateLabel chartName label] else [])
      ++ rangeGithubLabels chartName rest ({[label]} ∪ duplicateLabels)
  end.

(** The two sets built while the maintainers are walked. *)
Record Seen := {
  maintainersCharts : gset string;
  duplicateCharts : gset string
}.

(** Lines 53-72: the body of the loop over [m.Charts]. *)
Definition chartBody (chart : Chart.t) (seen : Seen) : list Line * Seen :=
  let crd :=
    if HasSuffix (Chart.Name chart) "-crd" && Chart.GenerateIssue chart
    then [InvalidCrdIssueFlag (Chart.Name chart) (Chart.GenerateIssue chart)]
    else [] in
  let labels := rangeGithubLabels (Chart.Name chart) (Chart.GithubLabels chart) ∅ in
  let '(dup, duplicateCharts') :=
    if decide (Chart.Name chart ∈ maintainersCharts seen) then
      if decide (Chart.Name chart ∈ duplicateCharts seen)
      then ([], duplicateCharts seen)
      else ([DuplicateChartOwnership (Chart.Name chart)],
            {[Chart.Name chart]} ∪ duplicateCharts seen)
    else ([], duplicateCharts seen) in
  (crd ++ labels ++ dup,
   {| maintainersCharts := {[Chart.Name chart]} ∪ maintainersCharts seen;
      duplicateCharts := duplicateCharts' |}).

(** Lines 52-73. *)
Fixpoint rangeCharts (charts : list Chart.t) (seen : Seen) : list Line * Seen :=
  match charts with
  | [] => ([], seen)
  | chart :: rest =>
      let '(out, seen1) := chartBody chart seen in
      let '(out', seen2) := rangeCharts rest seen1 in
      (out ++ out', seen2)
  end.

(** Lines 51-74.  [m.Charts] through a nil [m] panics: the result is [None]
    and the lines printed before it remain. *)
Fixpoint rangeMaintainers (maintainers : Maintainers) (seen : Seen)
  : list Line * option Seen :=
  match maintainers with
  | [] => ([], Some seen)
  | None :: _ => ([], None)
  | Some m :: rest =>
      let '(out, seen1) := rangeCharts (Maintainer.Charts m) seen in
      let '(out', r) := rangeMaintainers rest seen1 in
      (out ++ out', r)
  end.

(** Lines 83-87, the keys of [index.Entries] in the order visited. *)
Fixpoint rangeIndexEntries (keys : list string) (maintainersCharts : gset string)
    (maintainersFilePath : string) : list Line :=
  match keys with
  | [] => []
  | chartName :: rest =>
      (if decide (chartName ∈ maintainersCharts) then []
       else [MissingFromMaintainers chartName maintainersFilePath])
      ++ rangeIndexEntries rest maintainersCharts maintainersFilePath
  end.

(** Lines 89-94, the keys of [maintainersCharts] in the order visited; each
    key is looked up in [index.Entries] as it stands, then deleted from it.
    Returns the lines and the entries left. *)
Fixpoint rangeMaintainersCharts (keys : list string) (entries : gmap string any)
    (indexFilePath : string) : list Line * gmap string any :=
  match keys with
  | [] => ([], entries)
  | chartName :: rest =>
      let out :=
        match entries !! chartName with
        | Some _ => []
        | None => [MissingFromIndex chartName indexFilePath]
        end in
      let '(out', entries') :=
        rangeMaintainersCharts rest (delete chartName entries) indexFilePath in
      (out ++ out', entries')
  end.

Definition printErr (err : option error) : list Line :=
  match err with
  | Some e => [PrintErr e]
  | None => []
  end.

Definition validateMaintainersFile (rt : MapOrder) (disk : Disk)
    (maintainersFilePath indexFilePath : string) : Outcome :=
  let '(maintainers, err) := decodeMaintainersFile disk maintainersFilePath in
  let out0 := printErr err in
  match rangeMaintainers maintainers
          {| maintainersCharts := ∅; duplicateCharts := ∅ |} with
  | (out1, None) => Panicked (out0 ++ out1)
  | (out1, Some seen) =>
      let '(index, err) := decodeIndexFile disk indexFilePath in
      let out2 := printErr err in
      match index with
      | None => Panicked (out0 ++ out1 ++ out2)       (* index.Entries, line 79 *)
      | Some index =>
          let out3 :=
            if decide (size (IndexFile.Entries index) = 0)
            then [EmptyIndex indexFilePath] else [] in
          let out4 :=
            rangeIndexEntries (rangeKeys rt 0 (dom (IndexFile.Entries index)))
              (maintainersCharts seen) maintainersFilePath in
          let '(out5, _) :=
            rangeMaintainersCharts (rangeKeys rt 1 (maintainersCharts seen))
              (IndexFile.Entries index) indexFilePath in
          Returned (out0 ++ out1 ++ out2 ++ out3 ++ out4 ++ out5) None
      end
  end.

(** [main] (lines 35-41): the paths are fixed, and a returned error is
    printed. *)
Definition main (rt : MapOrder) (disk : Disk) : Outcome :=
  match validateMaintainersFile rt disk "./maintainers.yaml" "./charts/index.yaml" with
  | Returned out (Some err) => Returned (out ++ [PrintErr err]) None
  | o => o
  end.

(** Two runtimes: one visits the keys as [elements] lists them, the other
    backwards. *)
Definition forwards : MapOrder.
Proof. refine {| rangeKeys := λ _ keys, elements keys |}. reflexivity. Defined.

Definition backwards : MapOrder.
Proof.
  refine {| rangeKeys := λ _ keys, reverse (elements keys) |}.
  intros _ keys. apply reverse_Permutation.
Defined.

(** ** Sample documents *)

Definition contact : Contact.t := Contact.mk "team@example.com" "#team" "".

(** A disk on which every path leads to the same two documents. *)
Definition diskOf (maintainers : Document Maintainers) (index : Document IndexFile.t)
  : Disk :=
  {| maintainersAt := λ _, maintainers; indexAt := λ _, index |}.

Definition indexOf (names : list string) : IndexFile.t :=
  IndexFile.mk (list_to_map ((λ n, (n, YNull)) <$> names)).

(** Two teams; [foo] is declared three times, [fleet] carries a repeated
    label, [fleet-crd] asks for issues. *)
Definition untidy : list Maintainer.t :=
  [ Maintainer.mk "alpha" contact
      [ Chart.mk "foo" true ["area/foo"];
        Chart.mk "fleet" true ["a"; "b"; "a"; "a"];
        Chart.mk "fleet-crd" true [] ];
    Maintainer.mk "beta" contact
      [ Chart.mk "foo" false [];
        Chart.mk "bar-crd" false ["x"];
        Chart.mk "foo" true [] ] ].

(** A registry and an index that agree. *)
Definition tidy : list Maintainer.t :=
  [ Maintainer.mk "alpha" contact
      [ Chart.mk "foo" true ["area/foo"; "team/alpha"];
        Chart.mk "foo-crd" false [] ];
    Maintainer.mk "beta" contact [ Chart.mk "bar" true [] ] ].

(** The declarations of [untidy], in reverse order and under one team. *)
Definition regrouped : list Maintainer.t :=
  [ Maintainer.mk "gamma" contact (reverse (declarations untidy)) ].

(** Maintainers declaring a and b. *)
Definition declaringAB : list Maintainer.t :=
  [ Maintainer.mk "alpha" contact [ Chart.mk "a" false []; Chart.mk "b" false [] ] ].

(** ** Vocabulary of the properties

    The checks are stated a second time below, from the words of the
    specification (section 4.2) and by position in the input: no set is
    kept, a declaration or a label is judged against the sequence that
    stands before it.  The loops above are compared with these. *)

(** How many times [x] occurs in [l]. *)
Definition occurrences `{EqDecision A} (x : A) (l : list A) : nat :=
  length (filter (λ y, y = x) l).

(** Check 1: the name ends in [-crd] and generateIssue is true. *)
Definition misflagged (c : Chart.t) : bool :=
  HasSuffix (Chart.Name c) "-crd" && Chart.GenerateIssue c.

Definition crdFinding (c : Chart.t) : list Line :=
  if misflagged c then [InvalidCrdIssueFlag (Chart.Name c) true] else [].

(** Check 2 by position: the labels that equal a label standing before them
    in the sequence, in input order.  [earlier] is what stands before
    [labels]. *)
Fixpoint repeatedLabels (earlier labels : list string) : list string :=
  match labels with
  | [] => []
  | label :: rest =>
      (if decide (label ∈ earlier) then [label] else [])
      ++ repeatedLabels (earlier ++ [label]) rest
  end.

(** Check 3 by position: a declaration emits when its name was declared
    exactly once before it, that is, at the second declaration of a name. *)
Definition ownershipFinding (earlier : list string) (c : Chart.t) : list Line :=
  if decide (occurrences (Chart.Name c) earlier = 1)
  then [DuplicateChartOwnership (Chart.Name c)] else [].

(** What one declaration contributes, given the names declared before it. *)
Definition discovered (earlier : list string) (c : Chart.t) : list Line :=
  crdFinding c
  ++ (DuplicateLabel (Chart.Name c) <$> repeatedLabels [] (Chart.GithubLabels c))
  ++ ownershipFinding earlier c.

(** Discovery order: declarations in input order, and for each one check 1,
    then check 2 label by label, then check 3. *)
Fixpoint discoveryOrder (earlier : list string) (cs : list Chart.t) : list Line :=
  match cs with
  | [] => []
  | c :: rest => discovered earlier c ++ discoveryOrder (earlier ++ [Chart.Name c]) rest
  end.

(** [seen] is what the loop has built once the declarations named [earlier]
    are behind it. *)
Definition tracks (earlier : list string) (seen : Seen) : Prop :=
  maintainersCharts seen = list_to_set earlier
  ∧ ∀ n, n ∈ duplicateCharts seen ↔ 2 ≤ occurrences n earlier.

(** Lines 79-94 on a decoded index, [declared] being the names gathered from
    the maintainers. *)
Definition crossChecks (rt : MapOrder) (index : IndexFile.t) (declared : gset string)
    (maintainersFilePath indexFilePath : string) : list Line :=
  (if decide (size (IndexFile.Entries index) = 0)
   then [EmptyIndex indexFilePath] else [])
  ++ rangeIndexEntries (rangeKeys rt 0 (dom (IndexFile.Entries index)))
       declared maintainersFilePath
  ++ (rangeMaintainersCharts (rangeKeys rt 1 declared)
        (IndexFile.Entries index) indexFilePath).1.

(** The set of chart names the maintainers declare. *)
Definition declaredSet (ms : list Maintainer.t) : gset string :=
  list_to_set (declaredNames ms).



(** What the documents must hold for a line to be printed. *)
Definition grounded (ms : list Maintainer.t) (index : IndexFile.t)
    (maintainersFilePath indexFilePath : string) (l : Line) : Prop :=
  match l with
  | PrintErr _ => False
  | InvalidCrdIssueFlag chart flag =>
      flag = true
      ∧ ∃ c, c ∈ declarations ms ∧ Chart.Name c = chart ∧ misflagged c = true
  | DuplicateLabel chart label =>
      ∃ c, c ∈ declarations ms ∧ Chart.Name c = chart
           ∧ 2 ≤ occurrences label (Chart.GithubLabels c)
  | DuplicateChartOwnership chart => 2 ≤ occurrences chart (declaredNames ms)
  | EmptyIndex path => path = indexFilePath ∧ IndexFile.Entries index = ∅
  | MissingFromMaintainers chart path =>
      path = maintainersFilePath
      ∧ chart ∈ dom (IndexFile.Entries index) ∧ chart ∉ declaredNames ms
  | MissingFromIndex chart path =>
      path = indexFilePath
      ∧ chart ∈ declaredNames ms ∧ chart ∉ dom (IndexFile.Entries index)
  end.

(** ** The decoders, call by call (main.go, lines 98-130)

    [decodeMaintainersFile] and [decodeIndexFile] above give the outcome of
    a decoder for each path.  Here the three functions are written out over
    the calls they make: [os.Open], [io.ReadAll], [yaml.Unmarshal] and the
    deferred [file.Close]. *)

Module Sys.

(** An open [*os.File]. *)
Definition File := nat.

(** The calls on the operating system, in the order made.  [Open] records
    the file obtained, if any. *)
Inductive Call :=
| Open (path : string) (file : option File)
| ReadAll (file : File)
| Close (file : File).

(** [yaml.Unmarshal(data, &target)]: the target as the call leaves it, which
    may be partly filled when the call fails, and the error returned. *)
Definition Unmarshal (A : Type) := list Byte.byte → A → A * option error.

Record Env := {
  os_Open : string → error + File;
  io_ReadAll : File → error + list Byte.byte;
  yaml_Unmarshal_Maintainers : Unmarshal Maintainers;
  yaml_Unmarshal_IndexFile : Unmarshal IndexFile.t
}.

(** Lines 124-130.  Returns the target as left, the error and the calls. *)
Definition decodeYAMLFile {A} (env : Env) (unmarshal : Unmarshal A) (r : File)
    (target : A) : A * option error * list Call :=
  match io_ReadAll env r with
  | inl err => (target, Some err, [ReadAll r])
  | inr data =>
      let '(target', err) := unmarshal data target in
      (target', err, [ReadAll r])
  end.

(** Lines 98-109.  [maintainers] starts as the nil slice; the deferred
    [Close] runs when the function returns, after [decodeYAMLFile]. *)
Definition decodeMaintainersFile (env : Env) (path : string)
  : Maintainers * option error * list Call :=
  let maintainers : Maintainers := [] in
  match os_Open env path with
  | inl err => ([], Some err, [Open path None])
  | inr file =>
      let '(maintainers', err, calls) :=
        decodeYAMLFile env (yaml_Unmarshal_Maintainers env) file maintainers in
      match err with
      | Some err => ([], Some err, Open path (Some file) :: calls ++ [Close file])
      | None => (maintainers', None, Open path (Some file) :: calls ++ [Close file])
      end
  end.

(** Lines 111-122.  [index] starts as the zero [IndexFile], whose map is
    nil; on success the pointer returned is [&index]. *)
Definition decodeIndexFile (env : Env) (path : string)
  : option IndexFile.t * option error * list Call :=
  let index : IndexFile.t := IndexFile.mk ∅ in
  match os_Open env path with
  | inl err => (None, Some err, [Open path None])
  | inr file =>
      let '(index', err, calls) :=
        decodeYAMLFile env (yaml_Unmarshal_IndexFile env) file index in
      match err with
      | Some err => (None, Some err, Open path (Some file) :: calls ++ [Close file])
      | None => (Some index', None, Open path (Some file) :: calls ++ [Close file])
      end
  end.

(** The documents as the decoders deliver them. *)
Definition disk (env : Env) : Disk :=
  {| maintainersAt := λ path,
       match decodeMaintainersFile env path with
       | (maintainers, None, _) => Parsed maintainers
       | (_, Some err, _) => Unreadable err
       end;
     indexAt := λ path,
       match decodeIndexFile env path with
       | (Some index, None, _) => Parsed index
       | (_, Some err, _) => Unreadable err
       | (None, None, _) => Parsed (IndexFile.mk ∅)
       end |}.

(** The calls of a run of [validateMaintainersFile]: those of line 44 and,
    unless the walk of lines 51-74 panics, those of line 75. *)
Definition calls (env : Env) (maintainersFilePath indexFilePath : string)
  : list Call :=
  let '(maintainers, _, calls1) := decodeMaintainersFile env maintainersFilePath in
  match (rangeMaintainers maintainers
           {| maintainersCharts := ∅; duplicateCharts := ∅ |}).2 with
  | None => calls1
  | Some _ => calls1 ++ (decodeIndexFile env indexFilePath).2
  end.

(** A sequence of calls keeps to the discipline when a file is opened only
    while none is open, read and closed only while it is the open one, and
    none is open at the end.  [held] is the file open at the start. *)
Fixpoint disciplined (held : option File) (calls : list Call) : bool :=
  match calls with
  | [] => bool_decide (held = None)
  | Open _ file :: rest => bool_decide (held = None) && disciplined file rest
  | ReadAll file :: rest => bool_decide (held = Some file) && disciplined held rest
  | Close file :: rest => bool_decide (held = Some file) && disciplined None rest
  end.

(** A file system with a good registry, and a YAML library that fails on
    the index after filling part of it. *)
Definition sample : Env :=
  {| os_Open := λ path,
       if String.eqb path "./maintainers.yaml" then inr 3
       else if String.eqb path "./charts/index.yaml" then inr 4
       else inl ("open " +:+ path +:+ ": no such file or directory");
     io_ReadAll := λ file, inr [];
     yaml_Unmarshal_Maintainers := λ _ _, (records tidy, None);
     yaml_Unmarshal_IndexFile := λ _ _,
       (indexOf ["foo"], Some "yaml: line 2: did not find expected key") |}.

End Sys.

(** ** strings.HasSuffix *)

Lemma append_String c (p s : string) :
  String.append (String c p) s = String c (String.append p s).
Proof. reflexivity. Qed.

Lemma string_length_append (p s : string) :
  String.length (String.append p s) = String.length p + String.length s.
Proof.
  induction p as [|c p IH]; [done|].
  rewrite append_String. cbn [String.length Nat.add]. by f_equal.
Qed.

Lemma substring_whole (s : string) : String.substring 0 (String.length s) s = s.
Proof.
  induction s as [|c s IH]; [done|].
  cbn [String.length String.substring]. by f_equal.
Qed.

Lemma substring_skip (p s : string) m :
  String.substring (String.length p) m (String.append p s) = String.substring 0 m s.
Proof.
  induction p as [|c p IH]; [done|].
  rewrite append_String. cbn [String.length String.substring]. apply IH.
Qed.

Lemma substring_split (s : string) n :
  n ≤ String.length s →
  s = String.append (String.substring 0 n s)
        (String.substring n (String.length s - n) s).
Proof.
  revert n. induction s as [|c s IH]; intros n Hn.
  - cbn in Hn. by replace n with 0 by lia.
  - destruct n as [|n]; cbn [String.substring String.length Nat.sub].
    + by rewrite substring_whole.
    + rewrite append_String. cbn in Hn. f_equal. apply IH. lia.
Qed.

(** [HasSuffix s suffix] says that [s] ends with [suffix]. *)
Lemma HasSuffix_spec (s suffix : string) :
  HasSuffix s suffix = true ↔ ∃ p, s = String.append p suffix.
Proof.
  unfold HasSuffix. rewrite andb_true_iff, Nat.leb_le, String.eqb_eq. split.
  - intros [Hlen Hsub].
    exists (String.substring 0 (String.length s - String.length suffix) s).
    pose proof (substring_split s (String.length s - String.length suffix)) as Hs.
    replace (String.length s - (String.length s - String.length suffix))
      with (String.length suffix) in Hs by lia.
    rewrite Hsub in Hs. apply Hs. lia.
  - intros [p ->]. rewrite string_length_append. split; [lia|].
    replace (String.length p + String.length suffix - String.length suffix)
      with (String.length p) by lia.
    by rewrite substring_skip, substring_whole.
Qed.

(** ** Counting *)

Section Occurrences.
Context `{EqDecision A}.
Implicit Types (x y : A) (l k : list A).

Lemma occurrences_nil x : occurrences x [] = 0.
Proof. reflexivity. Qed.

Lemma occurrences_cons x y l :
  occurrences x (y :: l) = (if decide (y = x) then 1 else 0) + occurrences x l.
Proof.
  unfold occurrences. rewrite filter_cons. case_decide; reflexivity.
Qed.

Lemma occurrences_app x l k :
  occurrences x (l ++ k) = occurrences x l + occurrences x k.
Proof. unfold occurrences. by rewrite filter_app, length_app. Qed.

Lemma occurrences_snoc x y l :
  occurrences x (l ++ [y]) = occurrences x l + (if decide (y = x) then 1 else 0).
Proof.
  rewrite occurrences_app, occurrences_cons, occurrences_nil. lia.
Qed.

Lemma occurrences_zero x l : occurrences x l = 0 ↔ x ∉ l.
Proof.
  induction l as [|y l IH]; [by rewrite occurrences_nil; set_solver|].
  rewrite occurrences_cons, not_elem_of_cons.
  case_decide as Hy; [split; [lia|intros [Hne _]; by destruct Hne]|].
  rewrite <- IH. split; [intros; split; [congruence|lia]|intros [_ ?]; lia].
Qed.

Lemma occurrences_pos x l : 1 ≤ occurrences x l ↔ x ∈ l.
Proof.
  destruct (decide (x ∈ l)) as [Hin|Hout].
  - split; [done|]. intros _.
    destruct (occurrences x l) eqn:E; [|lia].
    by apply occurrences_zero in E.
  - split; [|done]. apply occurrences_zero in Hout. lia.
Qed.

Lemma occurrences_NoDup l : NoDup l ↔ ∀ x, occurrences x l ≤ 1.
Proof.
  induction l as [|y l IH].
  - split; [intros _ x; rewrite occurrences_nil; lia|constructor].
  - rewrite NoDup_cons, IH. split.
    + intros [Hy Hl] x. rewrite occurrences_cons. case_decide; subst.
      * apply occurrences_zero in Hy. lia.
      * specialize (Hl x). lia.
    + intros H. split.
      * apply occurrences_zero. specialize (H y).
        rewrite occurrences_cons, decide_True in H by done. lia.
      * intros x. specialize (H x). rewrite occurrences_cons in H. lia.
Qed.

Lemma occurrences_NoDup_elem x l : NoDup l → x ∈ l → occurrences x l = 1.
Proof.
  intros Hl Hx. apply occurrences_pos in Hx.
  pose proof (proj1 (occurrences_NoDup l) Hl x). lia.
Qed.

Lemma occurrences_Permutation x l k : l ≡ₚ k → occurrences x l = occurrences x k.
Proof. intros H. unfold occurrences. by rewrite H. Qed.

Lemma occurrences_filter (P : A → Prop) `{∀ y, Decision (P y)} x l :
  P x → occurrences x (filter P l) = occurrences x l.
Proof.
  intros HP. induction l as [|y l IH]; [done|].
  rewrite filter_cons, (occurrences_cons x y l). case_decide as Hy.
  - rewrite occurrences_cons. by rewrite IH.
  - rewrite IH. case_decide; [subst; done|lia].
Qed.
End Occurrences.

(** ** Lines by kind *)

Lemma ofKind_app k out out' : ofKind k (out ++ out') = ofKind k out ++ ofKind k out'.
Proof. apply filter_app. Qed.

Lemma ofKind_all k out : Forall (λ l, kind l = k) out → ofKind k out = out.
Proof.
  induction 1 as [|l out Hl _ IH]; [done|].
  unfold ofKind in *. by rewrite filter_cons, decide_True, IH.
Qed.

Lemma ofKind_none k out : Forall (λ l, kind l ≠ k) out → ofKind k out = [].
Proof.
  induction 1 as [|l out Hl _ IH]; [done|].
  unfold ofKind in *. by rewrite filter_cons, decide_False, IH.
Qed.

Lemma ofKind_fmap {A} k (f : A → Line) (xs : list A) :
  (∀ x, kind (f x) = k) → ofKind k (f <$> xs) = f <$> xs.
Proof.
  intros Hf. apply ofKind_all, Forall_fmap, Forall_forall. intros x _. apply Hf.
Qed.

Lemma ofKind_fmap_other {A} k (f : A → Line) (xs : list A) :
  (∀ x, kind (f x) ≠ k) → ofKind k (f <$> xs) = [].
Proof.
  intros Hf. apply ofKind_none, Forall_fmap, Forall_forall. intros x _. apply Hf.
Qed.

Lemma ofKind_printErr k err : k ≠ KPrintErr → ofKind k (printErr err) = [].
Proof.
  intros Hk. destruct err; [|done]. apply ofKind_none. by repeat constructor.
Qed.

Lemma perChart_app (out out' : list Line) :
  filter (λ l, perChart l = true) (out ++ out')
  = filter (λ l, perChart l = true) out ++ filter (λ l, perChart l = true) out'.
Proof. apply filter_app. Qed.

Lemma perChart_all out :
  Forall (λ l, perChart l = true) out → filter (λ l, perChart l = true) out = out.
Proof.
  induction 1 as [|l out Hl _ IH]; [done|]. by rewrite filter_cons, decide_True, IH.
Qed.

Lemma perChart_none out :
  Forall (λ l, perChart l = false) out → filter (λ l, perChart l = true) out = [].
Proof.
  induction 1 as [|l out Hl _ IH]; [done|].
  rewrite filter_cons, decide_False, IH; [done|]. by rewrite Hl.
Qed.

Lemma perChart_printErr err : Forall (λ l, perChart l = false) (printErr err).
Proof. destruct err; by repeat constructor. Qed.

(** ** The label loop *)

(** The set kept by the loop holds the labels already passed, so the loop
    emits at the positions [repeatedLabels] names. *)
Lemma rangeGithubLabels_repeated chartName labels earlier :
  rangeGithubLabels chartName labels (list_to_set earlier)
  = DuplicateLabel chartName <$> repeatedLabels earlier labels.
Proof.
  revert earlier. induction labels as [|label rest IH]; intros earlier; [done|].
  cbn [rangeGithubLabels repeatedLabels]. rewrite fmap_app.
  replace ({[label]} ∪ list_to_set earlier : gset string)
    with (list_to_set (earlier ++ [label]) : gset string)
    by (rewrite list_to_set_snoc_L; apply (comm_L (∪))).
  rewrite IH. f_equal.
  destruct (decide (label ∈ earlier)) as [Hin|Hout].
  - rewrite decide_True by (by apply elem_of_list_to_set). done.
  - rewrite decide_False by (by rewrite elem_of_list_to_set). done.
Qed.

Lemma rangeGithubLabels_fresh chartName labels :
  rangeGithubLabels chartName labels ∅
  = DuplicateLabel chartName <$> repeatedLabels [] labels.
Proof. apply (rangeGithubLabels_repeated chartName labels []). Qed.

(** A label passed [n] times before is repeated at each of its occurrences;
    a label not yet passed at each occurrence but the first. *)
Lemma repeatedLabels_occurrences l earlier labels :
  occurrences l (repeatedLabels earlier labels)
  = if decide (l ∈ earlier) then occurrences l labels
    else pred (occurrences l labels).
Proof.
  revert earlier. induction labels as [|label rest IH]; intros earlier.
  - cbn [repeatedLabels]. rewrite !occurrences_nil. by case_decide.
  - cbn [repeatedLabels]. rewrite occurrences_app, IH, (occurrences_cons l label rest).
    destruct (decide (label = l)) as [->|Hne].
    + rewrite (decide_True (P := l ∈ earlier ++ [l])) by set_solver.
      destruct (decide (l ∈ earlier)).
      * rewrite (occurrences_cons l l []), occurrences_nil, decide_True by done. lia.
      * rewrite occurrences_nil. cbn. lia.
    + assert (occurrences l (if decide (label ∈ earlier) then [label] else []) = 0)
        as ->.
      { case_decide; [|done]. by rewrite occurrences_cons, decide_False. }
      destruct (decide (l ∈ earlier)) as [Hin|Hout].
      * rewrite decide_True; [lia|]. apply elem_of_app. by left.
      * rewrite decide_False; [lia|].
        rewrite elem_of_app, list_elem_of_singleton. intros [?|?]; congruence.
Qed.

Lemma occurrences_fmap_inj `{EqDecision A} `{EqDecision B} (f : A → B)
    `{!Inj (=) (=) f} x (l : list A) :
  occurrences (f x) (f <$> l) = occurrences x l.
Proof.
  induction l as [|y l IH]; [done|].
  rewrite fmap_cons, !occurrences_cons, IH.
  destruct (decide (y = x)) as [->|Hne]; [by rewrite decide_True|].
  rewrite decide_False; [done|]. intros Heq. by apply (inj f) in Heq.
Qed.

#[global] Instance DuplicateLabel_inj chart : Inj (=) (=) (DuplicateLabel chart).
Proof. by intros ?? [= ->]. Qed.

(** ** The loop over the declarations *)

Lemma tracks_empty : tracks [] {| maintainersCharts := ∅; duplicateCharts := ∅ |}.
Proof.
  split; [done|]. intros n. cbn [duplicateCharts]. rewrite occurrences_nil.
  split; [by rewrite elem_of_empty|lia].
Qed.

Lemma crd_line (c : Chart.t) :
  (if HasSuffix (Chart.Name c) "-crd" && Chart.GenerateIssue c
   then [InvalidCrdIssueFlag (Chart.Name c) (Chart.GenerateIssue c)] else [])
  = crdFinding c.
Proof.
  unfold crdFinding, misflagged.
  destruct (HasSuffix (Chart.Name c) "-crd"), (Chart.GenerateIssue c); reflexivity.
Qed.

(** One declaration: the body prints what [discovered] says, and the sets
    then account for one more name. *)
Lemma chartBody_discovered earlier seen c :
  tracks earlier seen →
  (chartBody c seen).1 = discovered earlier c
  ∧ tracks (earlier ++ [Chart.Name c]) (chartBody c seen).2.
Proof.
  intros [Hmc Hdc]. unfold chartBody, discovered, ownershipFinding.
  rewrite crd_line, rangeGithubLabels_fresh.
  pose proof (occurrences_pos (Chart.Name c) earlier) as Hpos.
  pose proof (Hdc (Chart.Name c)) as Hdup.
  assert (Hset : ({[Chart.Name c]} ∪ maintainersCharts seen : gset string)
                 = list_to_set (earlier ++ [Chart.Name c])).
  { rewrite Hmc, list_to_set_snoc_L. apply (comm_L (∪)). }
  destruct (decide (Chart.Name c ∈ maintainersCharts seen)) as [Hin|Hout].
  - rewrite Hmc, elem_of_list_to_set in Hin. apply Hpos in Hin.
    destruct (decide (Chart.Name c ∈ duplicateCharts seen)) as [Hd|Hd]; cbn.
    + apply Hdup in Hd as Hd'. rewrite decide_False by lia.
      split; [done|]. split; [done|]. cbn. intros n.
      rewrite occurrences_snoc, Hdc. case_decide; [subst n|]; lia.
    + assert (occurrences (Chart.Name c) earlier = 1) as Hone.
      { destruct (occurrences (Chart.Name c) earlier) as [|[|k]] eqn:E; [lia|done|].
        exfalso. apply Hd, Hdup. lia. }
      rewrite decide_True by done. split; [done|]. split; [done|]. cbn. intros n.
      rewrite occurrences_snoc, elem_of_union, elem_of_singleton, Hdc.
      case_decide as Hn.
      * subst n. split; [intros _; lia|intros _; by left].
      * split; [intros [?|?]; [congruence|lia]|]. intros ?. right. lia.
  - rewrite Hmc, elem_of_list_to_set in Hout. apply occurrences_zero in Hout.
    cbn. rewrite decide_False by lia. split; [done|]. split; [done|]. cbn.
    intros n. rewrite occurrences_snoc, Hdc. case_decide; [subst n|]; lia.
Qed.

Lemma rangeCharts_discovery cs earlier seen :
  tracks earlier seen →
  (rangeCharts cs seen).1 = discoveryOrder earlier cs
  ∧ tracks (earlier ++ (Chart.Name <$> cs)) (rangeCharts cs seen).2.
Proof.
  revert earlier seen. induction cs as [|c cs IH]; intros earlier seen Ht.
  - cbn. by rewrite app_nil_r.
  - cbn [rangeCharts discoveryOrder].
    destruct (chartBody_discovered earlier seen c Ht) as [Hout Ht1].
    destruct (chartBody c seen) as [out seen1]. cbn in Hout, Ht1.
    destruct (IH _ _ Ht1) as [Hout' Ht2].
    destruct (rangeCharts cs seen1) as [out' seen2]. cbn in Hout', Ht2 |- *.
    rewrite Hout, Hout'. split; [done|].
    rewrite <- app_assoc in Ht2. exact Ht2.
Qed.

Lemma discoveryOrder_app earlier cs cs' :
  discoveryOrder earlier (cs ++ cs')
  = discoveryOrder earlier cs ++ discoveryOrder (earlier ++ (Chart.Name <$> cs)) cs'.
Proof.
  revert earlier. induction cs as [|c cs IH]; intros earlier.
  - cbn. by rewrite app_nil_r.
  - cbn [app discoveryOrder]. rewrite IH, fmap_cons, <- !app_assoc. done.
Qed.

(** The whole walk over a slice of records: it never panics, and it prints
    the discovery order of the declarations. *)
Lemma rangeMaintainers_records ms earlier seen :
  tracks earlier seen →
  ∃ seen', rangeMaintainers (records ms) seen
           = (discoveryOrder earlier (declarations ms), Some seen')
           ∧ tracks (earlier ++ declaredNames ms) seen'.
Proof.
  revert earlier seen. induction ms as [|m ms IH]; intros earlier seen Ht.
  - exists seen. cbn. by rewrite app_nil_r.
  - cbn [records fmap list_fmap rangeMaintainers].
    destruct (rangeCharts_discovery (Maintainer.Charts m) earlier seen Ht)
      as [Hout Ht1].
    destruct (rangeCharts (Maintainer.Charts m) seen) as [out seen1].
    cbn in Hout, Ht1.
    destruct (IH _ _ Ht1) as (seen' & Hrun & Ht2).
    fold (records ms). rewrite Hrun. exists seen'. split.
    + f_equal. rewrite Hout. unfold declarations. cbn [flat_map].
      by rewrite discoveryOrder_app.
    + unfold declaredNames, declarations in *. cbn [flat_map].
      by rewrite fmap_app, app_assoc.
Qed.

Lemma discoveryOrder_perChart earlier cs :
  Forall (λ l, perChart l = true) (discoveryOrder earlier cs).
Proof.
  revert earlier. induction cs as [|c cs IH]; intros earlier; [constructor|].
  cbn [discoveryOrder]. apply Forall_app. split; [|apply IH].
  unfold discovered, crdFinding, ownershipFinding.
  repeat apply Forall_app_2.
  - destruct (misflagged c); by repeat constructor.
  - apply Forall_fmap, Forall_forall. by intros l _.
  - case_decide; by repeat constructor.
Qed.

(** ** The two membership loops *)

Lemma rangeIndexEntries_filter keys (declared : gset string) mp :
  rangeIndexEntries keys declared mp
  = (λ c, MissingFromMaintainers c mp) <$> filter (λ c, c ∉ declared) keys.
Proof.
  induction keys as [|k keys IH]; [done|].
  cbn [rangeIndexEntries]. rewrite IH, filter_cons.
  destruct (decide (k ∈ declared)).
  - by rewrite decide_False by (intros Hn; by apply Hn).
  - by rewrite decide_True.
Qed.

(** Draining the index does not change what the loop reports, because no key
    is visited twice: each name is looked up before anything that could
    have removed it. *)
Lemma rangeMaintainersCharts_filter keys (entries entries0 : gmap string any) ip :
  NoDup keys →
  (∀ k, k ∈ keys → entries !! k = entries0 !! k) →
  (rangeMaintainersCharts keys entries ip).1
  = (λ c, MissingFromIndex c ip) <$> filter (λ c, c ∉ dom entries0) keys.
Proof.
  intros Hnd. revert entries.
  induction Hnd as [|k keys Hk Hnd IH]; intros entries Hsame; [done|].
  cbn [rangeMaintainersCharts].
  specialize (IH (delete k entries)).
  destruct (rangeMaintainersCharts keys (delete k entries) ip) as [out' entries'].
  cbn [fst] in *. rewrite IH, filter_cons.
  - rewrite (Hsame k) by (by left).
    destruct (entries0 !! k) as [v|] eqn:E.
    + rewrite decide_False; [done|].
      intros Hn. apply Hn, elem_of_dom. by exists v.
    + rewrite decide_True by (by apply not_elem_of_dom). done.
  - intros k' Hk'. rewrite lookup_delete_ne by (intros ->; done).
    apply Hsame. by right.
Qed.

Lemma elements_difference_filter (X Y : gset string) keys :
  keys ≡ₚ elements X → filter (λ c, c ∉ Y) keys ≡ₚ elements (X ∖ Y).
Proof.
  intros Hp. rewrite Hp. apply NoDup_Permutation.
  - apply NoDup_filter, NoDup_elements.
  - apply NoDup_elements.
  - intros c. rewrite list_elem_of_filter, !elem_of_elements, elem_of_difference.
    tauto.
Qed.

Lemma missingFromMaintainers_lines rt (entries : gmap string any)
    (declared : gset string) mp :
  rangeIndexEntries (rangeKeys rt 0 (dom entries)) declared mp
  ≡ₚ (λ c, MissingFromMaintainers c mp) <$> elements (dom entries ∖ declared).
Proof.
  rewrite rangeIndexEntries_filter. apply fmap_Permutation.
  apply elements_difference_filter, rangeKeys_perm.
Qed.

Lemma missingFromIndex_lines rt (entries : gmap string any)
    (declared : gset string) ip :
  (rangeMaintainersCharts (rangeKeys rt 1 declared) entries ip).1
  ≡ₚ (λ c, MissingFromIndex c ip) <$> elements (declared ∖ dom entries).
Proof.
  rewrite (rangeMaintainersCharts_filter _ entries entries).
  - apply fmap_Permutation, elements_difference_filter, rangeKeys_perm.
  - rewrite (rangeKeys_perm rt 1 declared). apply NoDup_elements.
  - done.
Qed.

(** A nil entry in the slice stops the walk: what was printed for the
    records before it stays, nothing after it is looked at. *)
Lemma rangeMaintainers_nil ms rest seen :
  ∃ out, rangeMaintainers (records ms ++ None :: rest) seen = (out, None)
         ∧ out = (rangeMaintainers (records ms) seen).1.
Proof.
  revert seen. induction ms as [|m ms IH]; intros seen.
  - by exists [].
  - cbn [records fmap list_fmap app rangeMaintainers]. fold (records ms).
    destruct (rangeCharts (Maintainer.Charts m) seen) as [out seen1].
    destruct (IH seen1) as (out' & -> & ->).
    destruct (rangeMaintainers (records ms) seen1) as [out1 r]. by eexists.
Qed.

(** What the second loop leaves of the index: the entries under names that
    were not visited. *)
Lemma rangeMaintainersCharts_left keys (entries : gmap string any) ip :
  dom (rangeMaintainersCharts keys entries ip).2 = dom entries ∖ list_to_set keys.
Proof.
  revert entries. induction keys as [|k keys IH]; intros entries.
  - cbn. by rewrite difference_empty_L.
  - cbn [rangeMaintainersCharts]. specialize (IH (delete k entries)).
    destruct (rangeMaintainersCharts keys (delete k entries) ip) as [out' entries'].
    cbn [snd] in *. rewrite IH, dom_delete_L, list_to_set_cons.
    apply set_eq. intros c.
    rewrite !elem_of_difference, elem_of_union, elem_of_singleton. tauto.
Qed.

(** ** The run on a slice of records *)

Lemma validateMaintainersFile_records rt disk mp ip ms :
  (decodeMaintainersFile disk mp).1 = records ms →
  validateMaintainersFile rt disk mp ip
  = match (decodeIndexFile disk ip).1 with
    | None =>
        Panicked (printErr (decodeMaintainersFile disk mp).2
                  ++ discoveryOrder [] (declarations ms)
                  ++ printErr (decodeIndexFile disk ip).2)
    | Some index =>
        Returned (printErr (decodeMaintainersFile disk mp).2
                  ++ discoveryOrder [] (declarations ms)
                  ++ printErr (decodeIndexFile disk ip).2
                  ++ crossChecks rt index (declaredSet ms) mp ip) None
    end.
Proof.
  intros Hm. unfold validateMaintainersFile.
  destruct (decodeMaintainersFile disk mp) as [maintainers errm].
  cbn [fst snd] in *. subst maintainers.
  destruct (rangeMaintainers_records ms [] _ tracks_empty) as (seen & -> & Hmc & _).
  cbn [app] in Hmc. fold (declaredSet ms) in Hmc.
  destruct (decodeIndexFile disk ip) as [[index|] erri]; cbn [fst snd]; [|done].
  unfold crossChecks. rewrite Hmc.
  destruct (rangeMaintainersCharts _ _ _) as [out5 left]. reflexivity.
Qed.

Lemma crossChecks_not_perChart rt index declared mp ip :
  Forall (λ l, perChart l = false) (crossChecks rt index declared mp ip).
Proof.
  unfold crossChecks. repeat apply Forall_app_2.
  - case_decide; by repeat constructor.
  - rewrite rangeIndexEntries_filter. apply Forall_fmap, Forall_forall. by intros c _.
  - apply Forall_forall. intros l Hl.
    rewrite missingFromIndex_lines in Hl.
    apply list_elem_of_fmap in Hl as (c & -> & _). done.
Qed.

(** The part of the run that does not depend on the runtime's choices. *)
Lemma validateMaintainersFile_unfold rt disk mp ip :
  validateMaintainersFile rt disk mp ip
  = let out0 := printErr (decodeMaintainersFile disk mp).2 in
    let r := rangeMaintainers (decodeMaintainersFile disk mp).1
               {| maintainersCharts := ∅; duplicateCharts := ∅ |} in
    match r.2 with
    | None => Panicked (out0 ++ r.1)
    | Some seen =>
        let out2 := printErr (decodeIndexFile disk ip).2 in
        match (decodeIndexFile disk ip).1 with
        | None => Panicked (out0 ++ r.1 ++ out2)
        | Some index =>
            Returned (out0 ++ r.1 ++ out2
                      ++ crossChecks rt index (maintainersCharts seen) mp ip) None
        end
    end.
Proof.
  unfold validateMaintainersFile, crossChecks.
  destruct (decodeMaintainersFile disk mp) as [maintainers errm]. cbn [fst snd].
  destruct (rangeMaintainers maintainers _) as [out1 [seen|]]; cbn [fst snd]; [|done].
  destruct (decodeIndexFile disk ip) as [[index|] erri]; cbn [fst snd]; [|done].
  destruct (rangeMaintainersCharts _ _ _) as [out5 left]. reflexivity.
Qed.

(** No run returns an error, so [main] has none to print. *)
Lemma main_validateMaintainersFile rt disk :
  main rt disk
  = validateMaintainersFile rt disk "./maintainers.yaml" "./charts/index.yaml".
Proof.
  unfold main. rewrite validateMaintainersFile_unfold. cbn zeta.
  destruct (rangeMaintainers _ _).2; [|done].
  by destruct (decodeIndexFile disk "./charts/index.yaml").1.
Qed.

Lemma crossChecks_Permutation rt rt' index declared mp ip :
  crossChecks rt' index declared mp ip ≡ₚ crossChecks rt index declared mp ip.
Proof.
  unfold crossChecks.
  rewrite (missingFromMaintainers_lines rt'), (missingFromMaintainers_lines rt).
  rewrite (missingFromIndex_lines rt'), (missingFromIndex_lines rt). done.
Qed.

Lemma stdout_perChart rt disk mp ip ms :
  (decodeMaintainersFile disk mp).1 = records ms →
  filter (λ l, perChart l = true) (stdout (validateMaintainersFile rt disk mp ip))
  = discoveryOrder [] (declarations ms).
Proof.
  intros Hm. rewrite (validateMaintainersFile_records rt disk mp ip ms Hm).
  destruct (decodeIndexFile disk ip).1 as [index|]; cbn [stdout];
    rewrite !perChart_app, !(perChart_none (printErr _)) by apply perChart_printErr;
    rewrite (perChart_all (discoveryOrder _ _)) by apply discoveryOrder_perChart.
  - rewrite (perChart_none (crossChecks _ _ _ _ _))
      by apply crossChecks_not_perChart.
    by rewrite app_nil_r.
  - by rewrite app_nil_r.
Qed.

Lemma ofKind_perChart k (out : list Line) :
  (∀ l, kind l = k → perChart l = true) →
  ofKind k out = ofKind k (filter (λ l, perChart l = true) out).
Proof.
  intros Hk. unfold ofKind. rewrite list_filter_filter.
  apply list_filter_iff. intros l. specialize (Hk l). tauto.
Qed.

(** ** Discovery order, kind by kind *)

Lemma ofKind_crdFinding k c :
  ofKind k (crdFinding c) = if decide (k = KInvalidCrdIssueFlag) then crdFinding c else [].
Proof.
  unfold crdFinding. destruct (misflagged c); [|by case_decide].
  case_decide as Hk; [subst k; done|].
  apply ofKind_none. repeat constructor. cbn. congruence.
Qed.

Lemma ofKind_ownershipFinding k earlier c :
  ofKind k (ownershipFinding earlier c)
  = if decide (k = KDuplicateChartOwnership) then ownershipFinding earlier c else [].
Proof.
  unfold ownershipFinding. case_decide; [|by case_decide].
  case_decide as Hk; [subst k; done|].
  apply ofKind_none. repeat constructor. cbn. congruence.
Qed.

Lemma ofKind_discoveryOrder_crd earlier cs :
  ofKind KInvalidCrdIssueFlag (discoveryOrder earlier cs) = flat_map crdFinding cs.
Proof.
  revert earlier. induction cs as [|c cs IH]; intros earlier; [done|].
  cbn [discoveryOrder flat_map]. unfold discovered.
  rewrite !ofKind_app, IH, ofKind_crdFinding, ofKind_ownershipFinding.
  rewrite ofKind_fmap_other by done. by rewrite app_nil_r.
Qed.

Lemma ofKind_discoveryOrder_labels earlier cs :
  ofKind KDuplicateLabel (discoveryOrder earlier cs)
  = flat_map (λ c, rangeGithubLabels (Chart.Name c) (Chart.GithubLabels c) ∅) cs.
Proof.
  revert earlier. induction cs as [|c cs IH]; intros earlier; [done|].
  cbn [discoveryOrder flat_map]. unfold discovered.
  rewrite !ofKind_app, IH, ofKind_crdFinding, ofKind_ownershipFinding.
  rewrite ofKind_fmap by done. rewrite rangeGithubLabels_fresh.
  by rewrite app_nil_r.
Qed.

(** The second declaration of a name emits, and no other. *)
Lemma discoveryOrder_ownership n earlier cs :
  occurrences (DuplicateChartOwnership n) (discoveryOrder earlier cs)
  = match occurrences n earlier with
    | 0 => if decide (2 ≤ occurrences n (Chart.Name <$> cs)) then 1 else 0
    | 1 => if decide (1 ≤ occurrences n (Chart.Name <$> cs)) then 1 else 0
    | _ => 0
    end.
Proof.
  revert earlier. induction cs as [|c cs IH]; intros earlier.
  - cbn [discoveryOrder fmap list_fmap]. rewrite !occurrences_nil.
    destruct (occurrences n earlier) as [|[|?]]; repeat case_decide; lia.
  - cbn [discoveryOrder]. unfold discovered.
    rewrite !occurrences_app, IH, fmap_cons, occurrences_snoc.
    rewrite (occurrences_cons n (Chart.Name c)).
    assert (occurrences (DuplicateChartOwnership n) (crdFinding c) = 0) as ->.
    { unfold crdFinding. destruct (misflagged c); [|done].
      by rewrite occurrences_cons, decide_False. }
    assert (occurrences (DuplicateChartOwnership n)
              (DuplicateLabel (Chart.Name c)
                 <$> repeatedLabels [] (Chart.GithubLabels c)) = 0) as ->.
    { apply occurrences_zero. intros Hin.
      by apply list_elem_of_fmap in Hin as (? & ? & _). }
    unfold ownershipFinding.
    destruct (decide (Chart.Name c = n)) as [Hn|Hn].
    + rewrite Hn. destruct (occurrences n earlier) as [|[|k]]; cbn [Nat.add].
      * rewrite decide_False, occurrences_nil by lia.
        repeat case_decide; lia.
      * rewrite (decide_True (P := 1 = 1)) by done.
        rewrite occurrences_cons, decide_True, occurrences_nil by done.
        rewrite decide_True by lia. done.
      * rewrite decide_False, occurrences_nil by lia. done.
    + assert (occurrences (DuplicateChartOwnership n)
                (if decide (occurrences (Chart.Name c) earlier = 1)
                 then [DuplicateChartOwnership (Chart.Name c)] else []) = 0) as ->.
      { destruct (decide (occurrences (Chart.Name c) earlier = 1)); [|done].
        rewrite occurrences_cons, decide_False; [done|]. congruence. }
      cbn [Nat.add]. by rewrite !Nat.add_0_r.
Qed.

(** ** Properties of the checker *)

(** C8. The lines of the three per-declaration checks come out in discovery
    order: maintainers in input order, the charts of a maintainer in input
    order, and for each chart the CRD check, then its labels in input order,
    then the ownership check.  Two runs on the same documents, whatever
    order the runtime picks for the map iterations, print the same lines for
    these checks in the same order (and, up to order, the same lines
    altogether). *)
Theorem C8_per_chart_findings_in_discovery_order rt rt' disk mp ip ms :
  ((decodeMaintainersFile disk mp).1 = records ms →
   filter (λ l, perChart l = true) (stdout (validateMaintainersFile rt disk mp ip))
   = discoveryOrder [] (declarations ms))
  ∧ filter (λ l, perChart l = true) (stdout (validateMaintainersFile rt' disk mp ip))
    = filter (λ l, perChart l = true) (stdout (validateMaintainersFile rt disk mp ip))
  ∧ stdout (validateMaintainersFile rt' disk mp ip)
    ≡ₚ stdout (validateMaintainersFile rt disk mp ip).
Proof.
  split; [apply stdout_perChart|].
  rewrite !validateMaintainersFile_unfold. cbn zeta.
  destruct (rangeMaintainers _ _) as [out1 [seen|]]; cbn [fst snd]; [|done].
  destruct (decodeIndexFile disk ip).1 as [index|]; cbn [stdout]; [|done].
  split.
  - rewrite !perChart_app.
    by rewrite !(perChart_none (crossChecks _ _ _ _ _))
      by apply crossChecks_not_perChart.
  - by rewrite (crossChecks_Permutation rt rt').
Qed.

Lemma C8_witness :
  filter (λ l, perChart l = true)
    (stdout (validateMaintainersFile backwards
               (diskOf (Parsed (records untidy)) (Parsed (indexOf ["foo"; "fleet"])))
               "./maintainers.yaml" "./charts/index.yaml"))
  = discoveryOrder [] (declarations untidy).
Proof.
  destruct (C8_per_chart_findings_in_discovery_order backwards forwards
              (diskOf (Parsed (records untidy)) (Parsed (indexOf ["foo"; "fleet"])))
              "./maintainers.yaml" "./charts/index.yaml" untidy) as [Horder _].
  apply Horder. reflexivity.
Defined.

(** C2. A chart name declared two or more times, in one record or across
    records, gets exactly one DuplicateChartOwnership line, however often it
    recurs; a name declared once gets none. *)
Theorem C2_duplicate_ownership_reported_once rt disk mp ip ms n :
  (decodeMaintainersFile disk mp).1 = records ms →
  occurrences (DuplicateChartOwnership n)
    (stdout (validateMaintainersFile rt disk mp ip))
  = if decide (2 ≤ occurrences n (declaredNames ms)) then 1 else 0.
Proof.
  intros Hm.
  rewrite <- (occurrences_filter (λ l, perChart l = true)) by done.
  rewrite (stdout_perChart rt disk mp ip ms Hm), discoveryOrder_ownership.
  by rewrite occurrences_nil.
Qed.

Lemma C2_witness :
  occurrences "foo" (declaredNames untidy) = 3
  ∧ occurrences (DuplicateChartOwnership "foo")
      (stdout (validateMaintainersFile forwards
                 (diskOf (Parsed (records untidy)) (Parsed (indexOf ["foo"])))
                 "./maintainers.yaml" "./charts/index.yaml"))
    = if decide (2 ≤ occurrences "foo" (declaredNames untidy)) then 1 else 0.
Proof.
  split; [reflexivity|].
  apply (C2_duplicate_ownership_reported_once forwards
           (diskOf (Parsed (records untidy)) (Parsed (indexOf ["foo"])))
           "./maintainers.yaml" "./charts/index.yaml" untidy "foo").
  reflexivity.
Defined.

(** C3. Within one declaration every occurrence of a label after its first
    prints one DuplicateLabel line and the first prints none: the lines are
    the labels that repeat an earlier one, in input order, so a label
    occurring [k] times gets [k - 1] lines.  Over a run the DuplicateLabel
    lines are those of the declarations, one declaration after the other.
    Labels [a, b, a, a] give two lines for a and none for b. *)
Theorem C3_duplicate_label_per_repeated_occurrence :
  (∀ chartName labels,
     rangeGithubLabels chartName labels ∅
     = DuplicateLabel chartName <$> repeatedLabels [] labels)
  ∧ (∀ chartName labels l,
       occurrences (DuplicateLabel chartName l) (rangeGithubLabels chartName labels ∅)
       = pred (occurrences l labels))
  ∧ (∀ rt disk mp ip ms,
       (decodeMaintainersFile disk mp).1 = records ms →
       ofKind KDuplicateLabel (stdout (validateMaintainersFile rt disk mp ip))
       = flat_map (λ c, rangeGithubLabels (Chart.Name c) (Chart.GithubLabels c) ∅)
           (declarations ms))
  ∧ (∀ chartName,
       rangeGithubLabels chartName ["a"; "b"; "a"; "a"] ∅
       = [DuplicateLabel chartName "a"; DuplicateLabel chartName "a"]).
Proof.
  split; [apply rangeGithubLabels_fresh|]. split; [|split].
  - intros chartName labels l.
    rewrite rangeGithubLabels_fresh, occurrences_fmap_inj by apply _.
    rewrite repeatedLabels_occurrences. apply decide_False, not_elem_of_nil.
  - intros rt disk mp ip ms Hm.
    rewrite (ofKind_perChart KDuplicateLabel) by (by intros []).
    rewrite (stdout_perChart rt disk mp ip ms Hm).
    apply ofKind_discoveryOrder_labels.
  - intros chartName. by rewrite rangeGithubLabels_fresh.
Qed.

Lemma C3_witness :
  ofKind KDuplicateLabel
    (stdout (validateMaintainersFile forwards
               (diskOf (Parsed (records untidy)) (Parsed (indexOf ["fleet"])))
               "./maintainers.yaml" "./charts/index.yaml"))
  = [DuplicateLabel "fleet" "a"; DuplicateLabel "fleet" "a"].
Proof.
  destruct C3_duplicate_label_per_repeated_occurrence as (_ & _ & Hrun & _).
  rewrite (Hrun forwards
             (diskOf (Parsed (records untidy)) (Parsed (indexOf ["fleet"])))
             "./maintainers.yaml" "./charts/index.yaml" untidy eq_refl).
  reflexivity.
Defined.

Lemma occurrences_ofKind (x : Line) (out : list Line) :
  occurrences x (ofKind (kind x) out) = occurrences x out.
Proof. unfold ofKind. by apply (occurrences_filter (λ l, kind l = kind x)). Qed.

Lemma occurrences_crdFindings n flag cs :
  occurrences (InvalidCrdIssueFlag n flag) (flat_map crdFinding cs)
  = if flag
    then length (filter (λ c, Chart.Name c = n ∧ misflagged c = true) cs)
    else 0.
Proof.
  induction cs as [|c cs IH].
  - by destruct flag.
  - cbn [flat_map]. rewrite occurrences_app, IH, filter_cons. unfold crdFinding.
    destruct (misflagged c) eqn:Hc.
    + rewrite occurrences_cons, occurrences_nil.
      destruct flag.
      * destruct (decide (Chart.Name c = n)) as [->|Hn].
        -- rewrite !decide_True by done. cbn. lia.
        -- rewrite !decide_False by (intros H; apply Hn; first [by inversion H|apply H]).
           lia.
      * by rewrite decide_False.
    + rewrite occurrences_nil.
      destruct flag; [|done].
      rewrite decide_False by (intros [_ ?]; done). done.
Qed.

(** C4. Each declaration whose name ends in [-crd] and whose generateIssue is
    true prints exactly one InvalidCrdIssueFlag line, and a declaration
    without the suffix or with generateIssue false prints none, whatever
    else is declared: the lines of this kind are, declaration after
    declaration, one for each such declaration, and the lines naming a
    chart are as many as the declarations of that name that are misflagged.
    [HasSuffix name "-crd"] holds exactly of the names that end in [-crd]. *)
Theorem C4_crd_issue_flag_per_declaration rt disk mp ip ms :
  (decodeMaintainersFile disk mp).1 = records ms →
  ofKind KInvalidCrdIssueFlag (stdout (validateMaintainersFile rt disk mp ip))
  = flat_map
      (λ c, if HasSuffix (Chart.Name c) "-crd" && Chart.GenerateIssue c
            then [InvalidCrdIssueFlag (Chart.Name c) true] else [])
      (declarations ms)
  ∧ (∀ n flag,
      occurrences (InvalidCrdIssueFlag n flag)
        (stdout (validateMaintainersFile rt disk mp ip))
      = if flag
        then length (filter (λ c, Chart.Name c = n
                                  ∧ HasSuffix (Chart.Name c) "-crd"
                                    && Chart.GenerateIssue c = true)
                       (declarations ms))
        else 0)
  ∧ ∀ name, HasSuffix name "-crd" = true ↔ ∃ p, name = String.append p "-crd".
Proof.
  intros Hm.
  assert (Hk : ofKind KInvalidCrdIssueFlag
                 (stdout (validateMaintainersFile rt disk mp ip))
               = flat_map crdFinding (declarations ms)).
  { rewrite (ofKind_perChart KInvalidCrdIssueFlag) by (by intros []).
    rewrite (stdout_perChart rt disk mp ip ms Hm).
    apply ofKind_discoveryOrder_crd. }
  split; [exact Hk|]. split; [|intros name; apply HasSuffix_spec]. intros n flag.
  rewrite <- occurrences_ofKind. cbn [kind]. rewrite Hk.
  apply occurrences_crdFindings.
Qed.

Lemma C4_witness :
  ofKind KInvalidCrdIssueFlag
    (stdout (validateMaintainersFile forwards
               (diskOf (Parsed (records untidy)) (Parsed (indexOf ["fleet-crd"])))
               "./maintainers.yaml" "./charts/index.yaml"))
  = [InvalidCrdIssueFlag "fleet-crd" true].
Proof.
  destruct (C4_crd_issue_flag_per_declaration forwards
              (diskOf (Parsed (records untidy)) (Parsed (indexOf ["fleet-crd"])))
              "./maintainers.yaml" "./charts/index.yaml" untidy eq_refl)
    as [Hlines _].
  rewrite Hlines. reflexivity.
Defined.

(** ** The cross-document checks, kind by kind *)

Lemma rangeMaintainersCharts_kind keys (entries : gmap string any) ip :
  Forall (λ l, kind l = KMissingFromIndex) (rangeMaintainersCharts keys entries ip).1.
Proof.
  revert entries. induction keys as [|k keys IH]; intros entries; [constructor|].
  cbn [rangeMaintainersCharts]. specialize (IH (delete k entries)).
  destruct (rangeMaintainersCharts keys (delete k entries) ip) as [out' entries'].
  cbn [fst] in *. apply Forall_app_2; [|done].
  destruct (entries !! k); by repeat constructor.
Qed.

Lemma rangeIndexEntries_kind keys (declared : gset string) mp :
  Forall (λ l, kind l = KMissingFromMaintainers) (rangeIndexEntries keys declared mp).
Proof.
  rewrite rangeIndexEntries_filter. apply Forall_fmap, Forall_forall. by intros c _.
Qed.

Lemma Forall_kind_other k k' (out : list Line) :
  k ≠ k' → Forall (λ l, kind l = k') out → Forall (λ l, kind l ≠ k) out.
Proof.
  intros Hk Hout. eapply Forall_impl; [exact Hout|]. intros l ->. congruence.
Qed.

Lemma ofKind_uniform k k' (out : list Line) :
  Forall (λ l, kind l = k') out → ofKind k out = if decide (k = k') then out else [].
Proof.
  intros Hout. case_decide as Hk; [subst k'; by apply ofKind_all|].
  by apply ofKind_none, (Forall_kind_other k k').
Qed.

Lemma ofKind_crossChecks k rt index declared mp ip :
  ofKind k (crossChecks rt index declared mp ip)
  = match k with
    | KEmptyIndex =>
        if decide (size (IndexFile.Entries index) = 0) then [EmptyIndex ip] else []
    | KMissingFromMaintainers =>
        rangeIndexEntries (rangeKeys rt 0 (dom (IndexFile.Entries index))) declared mp
    | KMissingFromIndex =>
        (rangeMaintainersCharts (rangeKeys rt 1 declared)
           (IndexFile.Entries index) ip).1
    | _ => []
    end.
Proof.
  unfold crossChecks. rewrite !ofKind_app.
  pose proof (rangeIndexEntries_kind
                (rangeKeys rt 0 (dom (IndexFile.Entries index))) declared mp) as H4.
  pose proof (rangeMaintainersCharts_kind
                (rangeKeys rt 1 declared) (IndexFile.Entries index) ip) as H5.
  assert (H3 : Forall (λ l, kind l = KEmptyIndex)
                 (if decide (size (IndexFile.Entries index) = 0)
                  then [EmptyIndex ip] else [])).
  { case_decide; by repeat constructor. }
  rewrite (ofKind_uniform _ _ _ H3), (ofKind_uniform _ _ _ H4),
    (ofKind_uniform _ _ _ H5).
  destruct k; repeat (case_decide; try done); by rewrite ?app_nil_r.
Qed.

Lemma ofKind_discoveryOrder_other k earlier cs :
  (∀ l, kind l = k → perChart l = false) →
  ofKind k (discoveryOrder earlier cs) = [].
Proof.
  intros Hk. apply ofKind_none.
  eapply Forall_impl; [apply discoveryOrder_perChart|].
  intros l Hl Hkind. apply Hk in Hkind. congruence.
Qed.

(** On decoded documents, the lines of a cross-document kind are those of
    [crossChecks]. *)
Lemma ofKind_stdout_cross k rt disk mp ip ms index :
  (decodeMaintainersFile disk mp).1 = records ms →
  (decodeIndexFile disk ip).1 = Some index →
  k ≠ KPrintErr → (∀ l, kind l = k → perChart l = false) →
  ofKind k (stdout (validateMaintainersFile rt disk mp ip))
  = ofKind k (crossChecks rt index (declaredSet ms) mp ip).
Proof.
  intros Hm Hi Hk Hcross.
  rewrite (validateMaintainersFile_records rt disk mp ip ms Hm), Hi. cbn [stdout].
  rewrite !ofKind_app, !ofKind_printErr by done.
  by rewrite ofKind_discoveryOrder_other.
Qed.

Lemma missingFromMaintainers_stdout rt disk mp ip ms index :
  (decodeMaintainersFile disk mp).1 = records ms →
  (decodeIndexFile disk ip).1 = Some index →
  ofKind KMissingFromMaintainers (stdout (validateMaintainersFile rt disk mp ip))
  ≡ₚ (λ c, MissingFromMaintainers c mp)
       <$> elements (dom (IndexFile.Entries index) ∖ declaredSet ms).
Proof.
  intros Hm Hi.
  rewrite (ofKind_stdout_cross _ rt disk mp ip ms index Hm Hi)
    by (done || by intros []).
  rewrite ofKind_crossChecks. apply missingFromMaintainers_lines.
Qed.

Lemma missingFromIndex_stdout rt disk mp ip ms index :
  (decodeMaintainersFile disk mp).1 = records ms →
  (decodeIndexFile disk ip).1 = Some index →
  ofKind KMissingFromIndex (stdout (validateMaintainersFile rt disk mp ip))
  ≡ₚ (λ c, MissingFromIndex c ip)
       <$> elements (declaredSet ms ∖ dom (IndexFile.Entries index)).
Proof.
  intros Hm Hi.
  rewrite (ofKind_stdout_cross _ rt disk mp ip ms index Hm Hi)
    by (done || by intros []).
  rewrite ofKind_crossChecks. apply missingFromIndex_lines.
Qed.

#[global] Instance MissingFromMaintainers_inj (mp : string) :
  Inj (=) (=) (λ c, MissingFromMaintainers c mp).
Proof. by intros ?? [= ->]. Qed.

#[global] Instance MissingFromIndex_inj (ip : string) :
  Inj (=) (=) (λ c, MissingFromIndex c ip).
Proof. by intros ?? [= ->]. Qed.

(** C5. On a decoded index with no entries the run prints exactly one
    EmptyIndex line, carrying the index path, and on an index with an entry
    it prints none; the maintainer list plays no part. *)
Theorem C5_empty_index_one_global_finding rt disk mp ip ms index :
  (decodeMaintainersFile disk mp).1 = records ms →
  (decodeIndexFile disk ip).1 = Some index →
  ofKind KEmptyIndex (stdout (validateMaintainersFile rt disk mp ip))
  = if decide (size (IndexFile.Entries index) = 0) then [EmptyIndex ip] else [].
Proof.
  intros Hm Hi.
  rewrite (ofKind_stdout_cross _ rt disk mp ip ms index Hm Hi)
    by (done || by intros []).
  apply (ofKind_crossChecks KEmptyIndex).
Qed.

Lemma C5_witness :
  ofKind KEmptyIndex
    (stdout (validateMaintainersFile forwards
               (diskOf (Parsed (records untidy)) (Parsed (indexOf [])))
               "./maintainers.yaml" "./charts/index.yaml"))
  = [EmptyIndex "./charts/index.yaml"].
Proof.
  rewrite (C5_empty_index_one_global_finding forwards
             (diskOf (Parsed (records untidy)) (Parsed (indexOf [])))
             "./maintainers.yaml" "./charts/index.yaml" untidy (indexOf [])
             eq_refl eq_refl).
  reflexivity.
Defined.

Lemma elem_of_declaredSet c ms : c ∈ declaredSet ms ↔ c ∈ declaredNames ms.
Proof. apply elem_of_list_to_set. Qed.

Lemma elem_of_ofKind (l : Line) (out : list Line) :
  l ∈ out → l ∈ ofKind (kind l) out.
Proof. intros Hl. by apply list_elem_of_filter. Qed.

(** C1. On decoded documents: a name in the index that no maintainer
    declares gets exactly one MissingFromMaintainers line, a declared name
    that the index lacks gets exactly one MissingFromIndex line, and a name
    on both sides gets neither.  With maintainers declaring a and b and an
    index holding b and c the run prints MissingFromMaintainers(c) and
    MissingFromIndex(a) and nothing else, so nothing about b. *)
Theorem C1_bidirectional_membership :
  (∀ rt disk mp ip ms index,
     (decodeMaintainersFile disk mp).1 = records ms →
     (decodeIndexFile disk ip).1 = Some index →
     let out := stdout (validateMaintainersFile rt disk mp ip) in
     (∀ c, c ∈ dom (IndexFile.Entries index) → c ∉ declaredNames ms →
           occurrences (MissingFromMaintainers c mp) out = 1)
     ∧ (∀ c, c ∈ declaredNames ms → c ∉ dom (IndexFile.Entries index) →
             occurrences (MissingFromIndex c ip) out = 1)
     ∧ (∀ c path, c ∈ declaredNames ms → c ∈ dom (IndexFile.Entries index) →
                  (MissingFromMaintainers c path ∉ out)
                  ∧ (MissingFromIndex c path ∉ out)))
  ∧ (∀ rt mp ip,
       validateMaintainersFile rt
         (diskOf (Parsed (records declaringAB)) (Parsed (indexOf ["b"; "c"]))) mp ip
       = Returned [MissingFromMaintainers "c" mp; MissingFromIndex "a" ip] None).
Proof.
  split.
  - intros rt disk mp ip ms index Hm Hi out.
    pose proof (missingFromMaintainers_stdout rt disk mp ip ms index Hm Hi) as H4.
    pose proof (missingFromIndex_stdout rt disk mp ip ms index Hm Hi) as H5.
    fold out in H4, H5. split; [|split].
    + intros c Hc Hn.
      rewrite <- occurrences_ofKind. cbn [kind].
      rewrite (occurrences_Permutation _ _ _ H4).
      rewrite (occurrences_fmap_inj (λ c, MissingFromMaintainers c mp)).
      apply occurrences_NoDup_elem; [apply NoDup_elements|].
      rewrite elem_of_elements, elem_of_difference, elem_of_declaredSet. done.
    + intros c Hc Hn.
      rewrite <- occurrences_ofKind. cbn [kind].
      rewrite (occurrences_Permutation _ _ _ H5).
      rewrite (occurrences_fmap_inj (λ c, MissingFromIndex c ip)).
      apply occurrences_NoDup_elem; [apply NoDup_elements|].
      rewrite elem_of_elements, elem_of_difference, elem_of_declaredSet. done.
    + intros c path Hc Hi'. split; intros Hl; apply elem_of_ofKind in Hl;
        cbn [kind] in Hl.
      * rewrite H4 in Hl. apply list_elem_of_fmap in Hl as (c' & [= <- _] & Hc').
        rewrite elem_of_elements, elem_of_difference, elem_of_declaredSet in Hc'.
        tauto.
      * rewrite H5 in Hl. apply list_elem_of_fmap in Hl as (c' & [= <- _] & Hc').
        rewrite elem_of_elements, elem_of_difference in Hc'. tauto.
  - intros rt mp ip.
    rewrite (validateMaintainersFile_records rt
               (diskOf (Parsed (records declaringAB)) (Parsed (indexOf ["b"; "c"])))
               mp ip declaringAB eq_refl).
    cbn [decodeIndexFile diskOf indexAt fst snd printErr app].
    change (discoveryOrder [] (declarations declaringAB)) with (@nil Line).
    unfold crossChecks. cbn [app].
    pose proof (missingFromMaintainers_lines rt
                  (IndexFile.Entries (indexOf ["b"; "c"]))
                  (declaredSet declaringAB) mp) as H4.
    pose proof (missingFromIndex_lines rt
                  (IndexFile.Entries (indexOf ["b"; "c"]))
                  (declaredSet declaringAB) ip) as H5.
    change (elements _) with ["c"] in H4. change (elements _) with ["a"] in H5.
    apply Permutation_singleton_r in H4, H5. rewrite H4, H5.
    reflexivity.
Qed.

Lemma C1_witness :
  occurrences (MissingFromMaintainers "c" "./maintainers.yaml")
    (stdout (validateMaintainersFile backwards
               (diskOf (Parsed (records untidy)) (Parsed (indexOf ["foo"; "c"])))
               "./maintainers.yaml" "./charts/index.yaml")) = 1.
Proof.
  destruct C1_bidirectional_membership as [Hgeneral _].
  destruct (Hgeneral backwards
              (diskOf (Parsed (records untidy)) (Parsed (indexOf ["foo"; "c"])))
              "./maintainers.yaml" "./charts/index.yaml" untidy
              (indexOf ["foo"; "c"]) eq_refl eq_refl) as [Hindex _].
  apply Hindex.
  - apply (bool_decide_unpack _). vm_compute. reflexivity.
  - apply (bool_decide_unpack _). vm_compute. reflexivity.
Defined.

(** C10. On a decoded index with no entries the membership checks still
    run: besides the one EmptyIndex line the run prints one MissingFromIndex
    line for each distinct declared name, as many as there are distinct
    names, and no MissingFromMaintainers line. *)
Theorem C10_empty_index_keeps_membership_checks rt disk mp ip ms index :
  (decodeMaintainersFile disk mp).1 = records ms →
  (decodeIndexFile disk ip).1 = Some index →
  size (IndexFile.Entries index) = 0 →
  let out := stdout (validateMaintainersFile rt disk mp ip) in
  ofKind KEmptyIndex out = [EmptyIndex ip]
  ∧ length (ofKind KMissingFromIndex out) = size (declaredSet ms)
  ∧ (∀ c, c ∈ declaredNames ms → occurrences (MissingFromIndex c ip) out = 1)
  ∧ ofKind KMissingFromIndex out
    ≡ₚ (λ c, MissingFromIndex c ip) <$> elements (declaredSet ms)
  ∧ ofKind KMissingFromMaintainers out = [].
Proof.
  intros Hm Hi Hsize out.
  assert (Hempty : IndexFile.Entries index = ∅) by (by apply map_size_empty_iff).
  pose proof (missingFromMaintainers_stdout rt disk mp ip ms index Hm Hi) as H4.
  pose proof (missingFromIndex_stdout rt disk mp ip ms index Hm Hi) as H5.
  fold out in H4, H5. rewrite Hempty, dom_empty_L in H4, H5.
  rewrite difference_empty_L in H5. rewrite empty_difference_L in H4.
  rewrite elements_empty in H4. cbn in H4. apply Permutation_nil_r in H4.
  split; [|split; [|split; [|split]]].
  - unfold out.
    rewrite (ofKind_stdout_cross _ rt disk mp ip ms index Hm Hi)
      by (done || by intros []).
    rewrite (ofKind_crossChecks KEmptyIndex). by rewrite decide_True.
  - by rewrite H5, length_fmap.
  - intros c Hc. rewrite <- occurrences_ofKind. cbn [kind].
    rewrite (occurrences_Permutation _ _ _ H5).
    rewrite (occurrences_fmap_inj (λ c, MissingFromIndex c ip)).
    apply occurrences_NoDup_elem; [apply NoDup_elements|].
    by rewrite elem_of_elements, elem_of_declaredSet.
  - exact H5.
  - exact H4.
Qed.

Lemma C10_witness :
  size (declaredSet untidy) = 4
  ∧ length
      (ofKind KMissingFromIndex
         (stdout (validateMaintainersFile backwards
                    (diskOf (Parsed (records untidy)) (Parsed (indexOf [])))
                    "./maintainers.yaml" "./charts/index.yaml")))
    = size (declaredSet untidy).
Proof.
  split; [vm_compute; reflexivity|].
  destruct (C10_empty_index_keeps_membership_checks backwards
              (diskOf (Parsed (records untidy)) (Parsed (indexOf [])))
              "./maintainers.yaml" "./charts/index.yaml" untidy (indexOf [])
              eq_refl eq_refl eq_refl) as (_ & Hcount & _).
  exact Hcount.
Defined.

(** ** A registry with nothing to report *)

Lemma repeatedLabels_NoDup earlier labels :
  NoDup (earlier ++ labels) → repeatedLabels earlier labels = [].
Proof.
  revert earlier. induction labels as [|label rest IH]; intros earlier Hnd; [done|].
  cbn [repeatedLabels]. rewrite IH by (by rewrite <- app_assoc).
  apply NoDup_app in Hnd as (_ & Hdisj & _).
  rewrite decide_False; [done|]. intros Hin. apply (Hdisj label Hin). by left.
Qed.

Lemma discoveryOrder_clean earlier cs :
  NoDup (earlier ++ (Chart.Name <$> cs)) →
  Forall (λ c, NoDup (Chart.GithubLabels c)) cs →
  Forall (λ c, misflagged c = false) cs →
  discoveryOrder earlier cs = [].
Proof.
  revert earlier. induction cs as [|c cs IH]; intros earlier Hnd Hlabels Hcrd; [done|].
  apply Forall_cons in Hlabels as [Hl Hlabels]. apply Forall_cons in Hcrd as [Hc Hcrd].
  cbn [discoveryOrder]. rewrite IH; [|by rewrite <- app_assoc|done|done].
  unfold discovered, crdFinding, ownershipFinding.
  rewrite Hc, repeatedLabels_NoDup by done.
  rewrite fmap_cons in Hnd. apply NoDup_app in Hnd as (_ & Hdisj & _).
  rewrite decide_False; [done|]. intros Hone.
  assert (Chart.Name c ∈ earlier) as Hin by (apply occurrences_pos; lia).
  apply (Hdisj _ Hin). by left.
Qed.

(** C7. A registry without duplicate names, without duplicate labels and
    without misflagged CRD charts, whose declared names are exactly the
    names of a non-empty index, is accepted silently: the run prints nothing
    and returns nil. *)
Theorem C7_consistent_registry_no_findings rt disk mp ip ms index :
  decodeMaintainersFile disk mp = (records ms, None) →
  decodeIndexFile disk ip = (Some index, None) →
  NoDup (declaredNames ms) →
  Forall (λ c, NoDup (Chart.GithubLabels c)) (declarations ms) →
  Forall (λ c, HasSuffix (Chart.Name c) "-crd" && Chart.GenerateIssue c = false)
    (declarations ms) →
  declaredSet ms = dom (IndexFile.Entries index) →
  IndexFile.Entries index ≠ ∅ →
  validateMaintainersFile rt disk mp ip = Returned [] None.
Proof.
  intros Hm Hi Hnames Hlabels Hcrd Hsame Hne.
  rewrite (validateMaintainersFile_records rt disk mp ip ms) by (by rewrite Hm).
  rewrite Hm, Hi. cbn [fst snd printErr app].
  rewrite discoveryOrder_clean by done. cbn [app].
  pose proof (missingFromMaintainers_lines rt (IndexFile.Entries index)
                (declaredSet ms) mp) as H4.
  pose proof (missingFromIndex_lines rt (IndexFile.Entries index)
                (declaredSet ms) ip) as H5.
  rewrite Hsame in H4, H5.
  replace (dom (IndexFile.Entries index) ∖ dom (IndexFile.Entries index))
    with (∅ : gset string) in H4, H5 by (symmetry; apply difference_diag_L).
  rewrite elements_empty in H4, H5. cbn in H4, H5.
  apply Permutation_nil_r in H4, H5.
  unfold crossChecks. rewrite Hsame, H4, H5.
  rewrite decide_False; [done|]. by rewrite map_size_empty_iff.
Qed.

Lemma C7_witness :
  validateMaintainersFile backwards
    (diskOf (Parsed (records tidy)) (Parsed (indexOf ["bar"; "foo"; "foo-crd"])))
    "./maintainers.yaml" "./charts/index.yaml"
  = Returned [] None.
Proof.
  apply (C7_consistent_registry_no_findings backwards
           (diskOf (Parsed (records tidy)) (Parsed (indexOf ["bar"; "foo"; "foo-crd"])))
           "./maintainers.yaml" "./charts/index.yaml" tidy
           (indexOf ["bar"; "foo"; "foo-crd"])).
  - reflexivity.
  - reflexivity.
  - apply (bool_decide_unpack _). vm_compute. reflexivity.
  - repeat constructor; apply (bool_decide_unpack _); vm_compute; reflexivity.
  - repeat constructor.
  - vm_compute. reflexivity.
  - intros Hempty. apply (f_equal size) in Hempty. vm_compute in Hempty. discriminate.
Defined.

(** ** Documents that cannot be decoded *)

(** C9. When the index cannot be decoded the run does not go on to the
    cross-document checks and does not return: the error is printed, and
    the read of [index.Entries] through the nil pointer panics.  On a slice
    of records the panic comes after the per-chart lines and the printed
    error. *)
Theorem C9_unreadable_index_panics rt disk mp ip err :
  indexAt disk ip = Unreadable err →
  decodeIndexFile disk ip = (None, Some err)
  ∧ (∃ out, validateMaintainersFile rt disk mp ip = Panicked out)
  ∧ ∀ ms, (decodeMaintainersFile disk mp).1 = records ms →
          validateMaintainersFile rt disk mp ip
          = Panicked (printErr (decodeMaintainersFile disk mp).2
                      ++ discoveryOrder [] (declarations ms) ++ [PrintErr err]).
Proof.
  intros Hi.
  assert (Hd : decodeIndexFile disk ip = (None, Some err))
    by (unfold decodeIndexFile; by rewrite Hi).
  split; [done|]. split.
  - rewrite validateMaintainersFile_unfold. cbn zeta. rewrite Hd. cbn [fst snd].
    destruct (rangeMaintainers _ _).2; eauto.
  - intros ms Hm.
    rewrite (validateMaintainersFile_records rt disk mp ip ms Hm), Hd. done.
Qed.

Lemma C9_witness :
  validateMaintainersFile forwards
    (diskOf (Parsed (records untidy)) (Unreadable "yaml: line 3: could not find expected ':'"))
    "./maintainers.yaml" "./charts/index.yaml"
  = Panicked [ DuplicateLabel "fleet" "a"; DuplicateLabel "fleet" "a";
               InvalidCrdIssueFlag "fleet-crd" true;
               DuplicateChartOwnership "foo";
               PrintErr "yaml: line 3: could not find expected ':'" ].
Proof.
  destruct (C9_unreadable_index_panics forwards
              (diskOf (Parsed (records untidy))
                 (Unreadable "yaml: line 3: could not find expected ':'"))
              "./maintainers.yaml" "./charts/index.yaml"
              "yaml: line 3: could not find expected ':'" eq_refl)
    as (_ & _ & Hpanic).
  rewrite (Hpanic untidy eq_refl). reflexivity.
Defined.




(** ** Further properties of the run *)

Lemma decodeMaintainersFile_shape disk mp :
  (decodeMaintainersFile disk mp).2 = None
  ∨ ∃ err, decodeMaintainersFile disk mp = ([], Some err).
Proof.
  unfold decodeMaintainersFile. destruct (maintainersAt disk mp); eauto.
Qed.

Lemma decodeIndexFile_shape disk ip :
  (∃ index, decodeIndexFile disk ip = (Some index, None))
  ∨ ∃ err, decodeIndexFile disk ip = (None, Some err).
Proof.
  unfold decodeIndexFile. destruct (indexAt disk ip); eauto.
Qed.

Lemma rangeMaintainers_panics maintainers seen :
  (rangeMaintainers maintainers seen).2 = None ↔ None ∈ maintainers.
Proof.
  revert seen. induction maintainers as [|[m|] rest IH]; intros seen.
  - cbn. split; [done|]. by intros ?%not_elem_of_nil.
  - cbn [rangeMaintainers].
    destruct (rangeCharts (Maintainer.Charts m) seen) as [out seen1].
    specialize (IH seen1). destruct (rangeMaintainers rest seen1) as [out' r].
    cbn [snd] in *. rewrite IH, elem_of_cons. split; [by right|].
    by intros [?|?].
  - cbn. split; [intros _; by left|done].
Qed.

Lemma rangeMaintainers_returns maintainers seen seen' out :
  rangeMaintainers maintainers seen = (out, Some seen') →
  ∃ ms, maintainers = records ms.
Proof.
  revert seen out. induction maintainers as [|[m|] rest IH]; intros seen out.
  - intros _. by exists [].
  - cbn [rangeMaintainers].
    destruct (rangeCharts (Maintainer.Charts m) seen) as [out1 seen1].
    destruct (rangeMaintainers rest seen1) as [out' r] eqn:E.
    intros [= _ ->]. destruct (IH _ _ E) as [ms ->]. by exists (m :: ms).
  - by cbn.
Qed.

(** X1. The whole output of a run on decoded documents: the decode error of
    the maintainers if any, the per-chart lines in discovery order, the
    EmptyIndex line if the index has no entries, then one
    MissingFromMaintainers line for each name of the index that is not
    declared, then one MissingFromIndex line for each declared name that
    the index lacks; only the order inside each of the last two groups is
    left to the runtime. *)
Theorem X1_output_characterised rt disk mp ip ms index :
  (decodeMaintainersFile disk mp).1 = records ms →
  (decodeIndexFile disk ip).1 = Some index →
  ∃ fromIndex fromMaintainers,
    validateMaintainersFile rt disk mp ip
    = Returned (printErr (decodeMaintainersFile disk mp).2
                ++ discoveryOrder [] (declarations ms)
                ++ (if decide (size (IndexFile.Entries index) = 0)
                    then [EmptyIndex ip] else [])
                ++ fromIndex ++ fromMaintainers) None
    ∧ fromIndex ≡ₚ (λ c, MissingFromMaintainers c mp)
                     <$> elements (dom (IndexFile.Entries index) ∖ declaredSet ms)
    ∧ fromMaintainers ≡ₚ (λ c, MissingFromIndex c ip)
                           <$> elements (declaredSet ms ∖ dom (IndexFile.Entries index)).
Proof.
  intros Hm Hi.
  rewrite (validateMaintainersFile_records rt disk mp ip ms Hm), Hi.
  assert ((decodeIndexFile disk ip).2 = None) as ->.
  { destruct (decodeIndexFile_shape disk ip) as [[i E]|[e E]]; rewrite E in *;
      [done|discriminate]. }
  cbn [printErr app]. unfold crossChecks.
  eexists _, _. split; [reflexivity|]. split.
  - apply missingFromMaintainers_lines.
  - apply missingFromIndex_lines.
Qed.

Lemma X1_witness :
  ∃ fromIndex fromMaintainers,
    validateMaintainersFile backwards
      (diskOf (Parsed (records untidy)) (Parsed (indexOf ["foo"; "zeta"])))
      "./maintainers.yaml" "./charts/index.yaml"
    = Returned (printErr None
                ++ discoveryOrder [] (declarations untidy)
                ++ (if decide (size (IndexFile.Entries (indexOf ["foo"; "zeta"])) = 0)
                    then [EmptyIndex "./charts/index.yaml"] else [])
                ++ fromIndex ++ fromMaintainers) None
    ∧ fromIndex ≡ₚ (λ c, MissingFromMaintainers c "./maintainers.yaml")
                     <$> elements (dom (IndexFile.Entries (indexOf ["foo"; "zeta"]))
                                   ∖ declaredSet untidy)
    ∧ fromMaintainers ≡ₚ (λ c, MissingFromIndex c "./charts/index.yaml")
                           <$> elements (declaredSet untidy
                                         ∖ dom (IndexFile.Entries (indexOf ["foo"; "zeta"]))).
Proof.
  apply (X1_output_characterised backwards
           (diskOf (Parsed (records untidy)) (Parsed (indexOf ["foo"; "zeta"])))
           "./maintainers.yaml" "./charts/index.yaml" untidy
           (indexOf ["foo"; "zeta"])); reflexivity.
Defined.

(** X2. A run panics exactly when the maintainers slice holds a nil entry or
    the index could not be decoded; in every other case it returns, with a
    nil error. *)
Theorem X2_panics_exactly_on_nil rt disk mp ip :
  ((∃ out, validateMaintainersFile rt disk mp ip = Panicked out)
   ↔ None ∈ (decodeMaintainersFile disk mp).1 ∨ (decodeIndexFile disk ip).1 = None)
  ∧ ((∃ out, validateMaintainersFile rt disk mp ip = Returned out None)
     ↔ (None ∉ (decodeMaintainersFile disk mp).1)
       ∧ (decodeIndexFile disk ip).1 ≠ None).
Proof.
  rewrite validateMaintainersFile_unfold. cbn zeta.
  pose proof (rangeMaintainers_panics (decodeMaintainersFile disk mp).1
                {| maintainersCharts := ∅; duplicateCharts := ∅ |}) as Hp.
  destruct (rangeMaintainers _ _).2 as [seen|].
  - assert (None ∉ (decodeMaintainersFile disk mp).1) as Hnil
      by (intros Hin; apply Hp in Hin; discriminate).
    destruct (decodeIndexFile disk ip).1 as [index|].
    + split; split.
      * by intros [? ?].
      * intros [?|?]; done.
      * done.
      * eauto.
    + split; split.
      * by right.
      * eauto.
      * by intros [? ?].
      * by intros [_ ?].
  - assert (None ∈ (decodeMaintainersFile disk mp).1) as Hnil by (by apply Hp).
    split; split.
    + by left.
    + eauto.
    + by intros [? ?].
    + by intros [? _].
Qed.

(** X3. A nil entry in the maintainers slice ends the run on the spot: the
    lines of the records before it are printed, in discovery order, and
    nothing else; the entries after it and the index are never looked at. *)
Theorem X3_nil_maintainer_stops_the_run rt disk mp ip ms rest :
  (decodeMaintainersFile disk mp).1 = records ms ++ None :: rest →
  validateMaintainersFile rt disk mp ip
  = Panicked (discoveryOrder [] (declarations ms)).
Proof.
  intros Hm. rewrite validateMaintainersFile_unfold. cbn zeta.
  assert ((decodeMaintainersFile disk mp).2 = None) as ->.
  { destruct (decodeMaintainersFile_shape disk mp) as [?|[e E]]; [done|].
    rewrite E in Hm. cbn in Hm. by destruct ms. }
  rewrite Hm.
  destruct (rangeMaintainers_nil ms rest
              {| maintainersCharts := ∅; duplicateCharts := ∅ |})
    as (out & -> & ->).
  destruct (rangeMaintainers_records ms [] _ tracks_empty) as (seen & -> & _).
  done.
Qed.

Lemma X3_witness :
  validateMaintainersFile forwards
    (diskOf (Parsed (records untidy ++ None :: records tidy))
       (Parsed (indexOf ["zeta"])))
    "./maintainers.yaml" "./charts/index.yaml"
  = Panicked (discoveryOrder [] (declarations untidy)).
Proof.
  apply (X3_nil_maintainer_stops_the_run forwards
           (diskOf (Parsed (records untidy ++ None :: records tidy))
              (Parsed (indexOf ["zeta"])))
           "./maintainers.yaml" "./charts/index.yaml" untidy (records tidy)).
  reflexivity.
Defined.

Lemma rangeMaintainersCharts_lookup keys (entries : gmap string any) ip k :
  (rangeMaintainersCharts keys entries ip).2 !! k
  = if decide (k ∈ keys) then None else entries !! k.
Proof.
  revert entries. induction keys as [|k0 keys IH]; intros entries.
  - cbn. rewrite decide_False; [done|apply not_elem_of_nil].
  - cbn [rangeMaintainersCharts]. specialize (IH (delete k0 entries)).
    destruct (rangeMaintainersCharts keys (delete k0 entries) ip) as [out' left].
    cbn [snd] in *. rewrite IH.
    destruct (decide (k = k0)) as [->|Hne].
    + rewrite (decide_True (P := k0 ∈ k0 :: keys)) by (by left).
      case_decide; [done|apply lookup_delete_eq].
    + rewrite lookup_delete_ne by done.
      destruct (decide (k ∈ keys)) as [Hin|Hout].
      * rewrite decide_True; [done|by right].
      * rewrite decide_False; [done|]. by intros [?|?]%elem_of_cons.
Qed.

(** X4. The second membership loop drains the index: when it ends,
    [index.Entries] holds exactly the entries whose names no maintainer
    declares, with their values untouched.  These are the names the first
    loop reported as missing from the maintainers file. *)
Theorem X4_index_drained_to_undeclared rt (entries : gmap string any)
    (declared : gset string) mp ip :
  let left := (rangeMaintainersCharts (rangeKeys rt 1 declared) entries ip).2 in
  (∀ k, left !! k = if decide (k ∈ declared) then None else entries !! k)
  ∧ (∀ c, c ∈ dom left
          ↔ MissingFromMaintainers c mp
            ∈ rangeIndexEntries (rangeKeys rt 0 (dom entries)) declared mp).
Proof.
  intros left.
  assert (Hlook : ∀ k, left !! k = if decide (k ∈ declared) then None
                                   else entries !! k).
  { intros k. unfold left. rewrite rangeMaintainersCharts_lookup.
    destruct (decide (k ∈ declared)) as [Hin|Hout].
    - rewrite decide_True; [done|].
      by rewrite (rangeKeys_perm rt 1 declared), elem_of_elements.
    - rewrite decide_False; [done|].
      by rewrite (rangeKeys_perm rt 1 declared), elem_of_elements. }
  split; [exact Hlook|]. intros c.
  rewrite missingFromMaintainers_lines.
  rewrite (list_elem_of_fmap_inj (λ c, MissingFromMaintainers c mp)).
  rewrite elem_of_elements, elem_of_difference, !elem_of_dom, Hlook.
  case_decide; split.
  - by intros [? ?].
  - by intros [_ ?].
  - done.
  - by intros [? _].
Qed.

(** X5. The number of MissingFromMaintainers lines is the number of index
    names that are not declared, the number of MissingFromIndex lines the
    number of declared names that the index lacks, and a run prints no
    membership line at all exactly when the declared names and the index
    names are the same set. *)
Theorem X5_membership_lines_measure_the_difference rt disk mp ip ms index :
  (decodeMaintainersFile disk mp).1 = records ms →
  (decodeIndexFile disk ip).1 = Some index →
  let out := stdout (validateMaintainersFile rt disk mp ip) in
  length (ofKind KMissingFromMaintainers out)
  = size (dom (IndexFile.Entries index) ∖ declaredSet ms)
  ∧ length (ofKind KMissingFromIndex out)
    = size (declaredSet ms ∖ dom (IndexFile.Entries index))
  ∧ (ofKind KMissingFromMaintainers out = [] ∧ ofKind KMissingFromIndex out = []
     ↔ declaredSet ms = dom (IndexFile.Entries index)).
Proof.
  intros Hm Hi out.
  pose proof (missingFromMaintainers_stdout rt disk mp ip ms index Hm Hi) as H4.
  pose proof (missingFromIndex_stdout rt disk mp ip ms index Hm Hi) as H5.
  fold out in H4, H5. split; [|split].
  - by rewrite H4, length_fmap.
  - by rewrite H5, length_fmap.
  - split.
    + intros [E4 E5]. rewrite E4 in H4. rewrite E5 in H5.
      symmetry in H4, H5. apply Permutation_nil_r, fmap_nil_inv in H4, H5.
      apply elements_empty_inv in H4, H5.
      apply set_eq. intros c. split; intros Hc.
      * destruct (decide (c ∈ dom (IndexFile.Entries index))) as [|Hn]; [done|].
        exfalso. apply (not_elem_of_empty (C := gset string) c).
        rewrite <- H5. by apply elem_of_difference.
      * destruct (decide (c ∈ declaredSet ms)) as [|Hn]; [done|].
        exfalso. apply (not_elem_of_empty (C := gset string) c).
        rewrite <- H4. by apply elem_of_difference.
    + intros Heq. rewrite Heq, difference_diag_L, elements_empty in H4, H5.
      cbn in H4, H5. by apply Permutation_nil_r in H4, H5.
Qed.

Lemma X5_witness :
  length
    (ofKind KMissingFromMaintainers
       (stdout (validateMaintainersFile backwards
                  (diskOf (Parsed (records untidy)) (Parsed (indexOf ["foo"; "zeta"])))
                  "./maintainers.yaml" "./charts/index.yaml")))
  = size (dom (IndexFile.Entries (indexOf ["foo"; "zeta"])) ∖ declaredSet untidy).
Proof.
  destruct (X5_membership_lines_measure_the_difference backwards
              (diskOf (Parsed (records untidy)) (Parsed (indexOf ["foo"; "zeta"])))
              "./maintainers.yaml" "./charts/index.yaml" untidy
              (indexOf ["foo"; "zeta"]) eq_refl eq_refl) as (Hcount & _).
  exact Hcount.
Defined.

Lemma rangeCharts_app cs cs' seen :
  rangeCharts (cs ++ cs') seen
  = let '(out, seen1) := rangeCharts cs seen in
    let '(out', seen2) := rangeCharts cs' seen1 in
    (out ++ out', seen2).
Proof.
  revert seen. induction cs as [|c cs IH]; intros seen.
  - cbn. by destruct (rangeCharts cs' seen).
  - cbn [app rangeCharts]. destruct (chartBody c seen) as [out0 seen0].
    rewrite IH. destruct (rangeCharts cs seen0) as [out seen1].
    destruct (rangeCharts cs' seen1) as [out' seen2]. by rewrite app_assoc.
Qed.


(** X7. [main] adds nothing to [validateMaintainersFile] on the two fixed
    paths: since no run returns an error, the branch of [main] that prints
    one is never taken, and [main] ends as the run does. *)
Theorem X7_main_prints_no_error_of_its_own rt disk :
  main rt disk
  = validateMaintainersFile rt disk "./maintainers.yaml" "./charts/index.yaml"
  ∧ ∀ out err, main rt disk = Returned out err → err = None.
Proof.
  rewrite main_validateMaintainersFile. split; [done|].
  intros out err. rewrite validateMaintainersFile_unfold. cbn zeta.
  destruct (rangeMaintainers _ _).2; [|done].
  destruct (decodeIndexFile disk _).1; [|done]. by intros [= _ <-].
Qed.

Lemma X7_witness :
  main forwards (diskOf (Unreadable "no such file") (Parsed (indexOf ["c"])))
  = Returned [PrintErr "no such file";
              MissingFromMaintainers "c" "./maintainers.yaml"] None.
Proof.
  destruct (X7_main_prints_no_error_of_its_own forwards
              (diskOf (Unreadable "no such file") (Parsed (indexOf ["c"]))))
    as [-> _].
  reflexivity.
Defined.

(** ** Silence *)

Lemma repeatedLabels_nil_inv earlier labels :
  NoDup earlier → repeatedLabels earlier labels = [] → NoDup (earlier ++ labels).
Proof.
  revert earlier. induction labels as [|label rest IH]; intros earlier Hnd Hnil.
  - by rewrite app_nil_r.
  - cbn [repeatedLabels] in Hnil. apply app_eq_nil in Hnil as [Hhead Hrest].
    destruct (decide (label ∈ earlier)) as [|Hout]; [discriminate|].
    rewrite cons_middle, app_assoc. apply IH; [|done].
    apply NoDup_app. split; [done|]. split; [|apply NoDup_singleton].
    intros x Hx ->%list_elem_of_singleton. done.
Qed.

Lemma discoveryOrder_nil_inv earlier cs :
  NoDup earlier → discoveryOrder earlier cs = [] →
  NoDup (earlier ++ (Chart.Name <$> cs))
  ∧ Forall (λ c, NoDup (Chart.GithubLabels c)) cs
  ∧ Forall (λ c, misflagged c = false) cs.
Proof.
  revert earlier. induction cs as [|c cs IH]; intros earlier Hnd Hnil.
  - cbn. by rewrite app_nil_r.
  - cbn [discoveryOrder] in Hnil. apply app_eq_nil in Hnil as [Hc Hrest].
    unfold discovered in Hc.
    apply app_eq_nil in Hc as [Hcrd Hc]. apply app_eq_nil in Hc as [Hlab Hown].
    assert (misflagged c = false) as Hflag.
    { unfold crdFinding in Hcrd. by destruct (misflagged c). }
    assert (NoDup (Chart.GithubLabels c)) as Hlabels.
    { apply fmap_nil_inv in Hlab.
      by apply (repeatedLabels_nil_inv [] _ (NoDup_nil_2)) in Hlab. }
    assert (Chart.Name c ∉ earlier) as Hfresh.
    { unfold ownershipFinding in Hown.
      destruct (decide (occurrences (Chart.Name c) earlier = 1)); [discriminate|].
      apply occurrences_zero.
      pose proof (proj1 (occurrences_NoDup earlier) Hnd (Chart.Name c)). lia. }
    assert (NoDup (earlier ++ [Chart.Name c])) as Hnd'.
    { apply NoDup_app. split; [done|]. split; [|apply NoDup_singleton].
      intros x Hx ->%list_elem_of_singleton. done. }
    destruct (IH _ Hnd' Hrest) as (Hnames & Hl & Hf).
    rewrite <- app_assoc in Hnames. by repeat split; try constructor.
Qed.

Lemma consistent_silent rt disk mp ip ms index :
  decodeMaintainersFile disk mp = (records ms, None) →
  decodeIndexFile disk ip = (Some index, None) →
  NoDup (declaredNames ms) →
  Forall (λ c, NoDup (Chart.GithubLabels c)) (declarations ms) →
  Forall (λ c, misflagged c = false) (declarations ms) →
  declaredSet ms = dom (IndexFile.Entries index) →
  IndexFile.Entries index ≠ ∅ →
  validateMaintainersFile rt disk mp ip = Returned [] None.
Proof.
  intros Hm Hi Hnames Hlabels Hcrd Hsame Hne.
  rewrite (validateMaintainersFile_records rt disk mp ip ms) by (by rewrite Hm).
  rewrite Hm, Hi. cbn [fst snd printErr app].
  rewrite discoveryOrder_clean by done. cbn [app].
  pose proof (missingFromMaintainers_lines rt (IndexFile.Entries index)
                (declaredSet ms) mp) as H4.
  pose proof (missingFromIndex_lines rt (IndexFile.Entries index)
                (declaredSet ms) ip) as H5.
  rewrite Hsame, difference_diag_L, elements_empty in H4, H5. cbn in H4, H5.
  apply Permutation_nil_r in H4, H5.
  unfold crossChecks. rewrite Hsame, H4, H5.
  rewrite decide_False; [done|]. by rewrite map_size_empty_iff.
Qed.

(** X8. The checker is silent on the consistent registries and on no
    others: a run returns having printed nothing exactly when both
    documents were decoded, no name is declared twice, no declaration
    repeats a label, no [-crd] chart has generateIssue set, and the declared
    names are the names of an index that is not empty. *)
Theorem X8_silent_exactly_when_consistent rt disk mp ip :
  validateMaintainersFile rt disk mp ip = Returned [] None
  ↔ ∃ ms index,
      decodeMaintainersFile disk mp = (records ms, None)
      ∧ decodeIndexFile disk ip = (Some index, None)
      ∧ NoDup (declaredNames ms)
      ∧ Forall (λ c, NoDup (Chart.GithubLabels c)) (declarations ms)
      ∧ Forall (λ c, HasSuffix (Chart.Name c) "-crd" && Chart.GenerateIssue c = false)
          (declarations ms)
      ∧ declaredSet ms = dom (IndexFile.Entries index)
      ∧ IndexFile.Entries index ≠ ∅.
Proof.
  split.
  - intros Hrun.
    assert (∃ ms, (decodeMaintainersFile disk mp).1 = records ms) as [ms Hm].
    { rewrite validateMaintainersFile_unfold in Hrun. cbn zeta in Hrun.
      destruct (rangeMaintainers (decodeMaintainersFile disk mp).1 _)
        as [out1 [seen|]] eqn:E; [|discriminate].
      by apply rangeMaintainers_returns in E. }
    rewrite (validateMaintainersFile_records rt disk mp ip ms Hm) in Hrun.
    destruct (decodeIndexFile_shape disk ip) as [[index Hi]|[e Hi]];
      rewrite Hi in Hrun; cbn [fst snd] in Hrun; [|discriminate].
    injection Hrun as Hrun.
    apply app_eq_nil in Hrun as [Herr Hrun].
    apply app_eq_nil in Hrun as [Hper Hrun].
    cbn [printErr app] in Hrun. unfold crossChecks in Hrun.
    apply app_eq_nil in Hrun as [Hempty Hrun].
    apply app_eq_nil in Hrun as [H4 H5].
    exists ms, index.
    destruct (discoveryOrder_nil_inv [] _ (NoDup_nil_2) Hper)
      as (Hnames & Hlabels & Hcrd).
    pose proof (missingFromMaintainers_lines rt (IndexFile.Entries index)
                  (declaredSet ms) mp) as P4.
    pose proof (missingFromIndex_lines rt (IndexFile.Entries index)
                  (declaredSet ms) ip) as P5.
    rewrite H4 in P4. rewrite H5 in P5.
    symmetry in P4, P5.
    apply Permutation_nil_r, fmap_nil_inv, elements_empty_inv in P4, P5.
    repeat split; try done.
    + destruct (decodeMaintainersFile disk mp) as [maintainers [e|]];
        cbn [fst snd] in *; [discriminate|by subst].
    + apply set_eq. intros c. split; intros Hc.
      * destruct (decide (c ∈ dom (IndexFile.Entries index))) as [|Hn]; [done|].
        exfalso. apply (not_elem_of_empty (C := gset string) c).
        rewrite <- P5. by apply elem_of_difference.
      * destruct (decide (c ∈ declaredSet ms)) as [|Hn]; [done|].
        exfalso. apply (not_elem_of_empty (C := gset string) c).
        rewrite <- P4. by apply elem_of_difference.
    + intros Hnone. rewrite decide_True in Hempty; [discriminate|].
      by apply map_size_empty_iff.
  - intros (ms & index & Hm & Hi & Hnames & Hlabels & Hcrd & Hsame & Hne).
    by apply (consistent_silent rt disk mp ip ms index).
Qed.

Lemma X8_witness :
  validateMaintainersFile backwards
    (diskOf (Parsed (records tidy)) (Parsed (indexOf ["bar"; "foo"; "foo-crd"])))
    "./maintainers.yaml" "./charts/index.yaml"
  = Returned [] None.
Proof.
  apply (X8_silent_exactly_when_consistent backwards
           (diskOf (Parsed (records tidy)) (Parsed (indexOf ["bar"; "foo"; "foo-crd"])))
           "./maintainers.yaml" "./charts/index.yaml").
  exists tidy, (indexOf ["bar"; "foo"; "foo-crd"]).
  split; [reflexivity|]. split; [reflexivity|]. split; [|split; [|split; [|split]]].
  - apply (bool_decide_unpack _). vm_compute. reflexivity.
  - repeat constructor; apply (bool_decide_unpack _); vm_compute; reflexivity.
  - repeat constructor.
  - vm_compute. reflexivity.
  - intros Hempty. apply (f_equal size) in Hempty. vm_compute in Hempty. discriminate.
Defined.

(** ** No line without a cause *)

Lemma elem_of_flat_map {A B} (f : A → list B) (l : list A) (y : B) :
  y ∈ flat_map f l ↔ ∃ x, x ∈ l ∧ y ∈ f x.
Proof.
  rewrite list_elem_of_In, in_flat_map. split.
  - intros (x & Hx & Hy). exists x. by rewrite !list_elem_of_In.
  - intros (x & Hx & Hy). exists x. by rewrite <- !list_elem_of_In.
Qed.

Lemma discoveryOrder_grounded ms index mp ip :
  Forall (grounded ms index mp ip) (discoveryOrder [] (declarations ms)).
Proof.
  apply Forall_forall. intros l Hl.
  pose proof (proj1 (Forall_forall _ _)
                (discoveryOrder_perChart [] (declarations ms)) l Hl) as Hper.
  destruct l as [e|chart flag|chart label|chart|p|chart p|chart p];
    try discriminate; cbn [grounded].
  - apply elem_of_ofKind in Hl. cbn [kind] in Hl.
    rewrite ofKind_discoveryOrder_crd in Hl.
    apply elem_of_flat_map in Hl as (c & Hc & Hl).
    unfold crdFinding in Hl. destruct (misflagged c) eqn:Hflag.
    + apply list_elem_of_singleton in Hl as [= -> ->]. split; [done|]. by exists c.
    + by apply not_elem_of_nil in Hl.
  - apply elem_of_ofKind in Hl. cbn [kind] in Hl.
    rewrite ofKind_discoveryOrder_labels in Hl.
    apply elem_of_flat_map in Hl as (c & Hc & Hl).
    rewrite rangeGithubLabels_fresh in Hl.
    apply list_elem_of_fmap in Hl as (label' & [= -> ->] & Hlabel).
    exists c. split; [done|]. split; [done|].
    apply occurrences_pos in Hlabel.
    rewrite repeatedLabels_occurrences, decide_False in Hlabel
      by apply not_elem_of_nil.
    lia.
  - apply occurrences_pos in Hl. rewrite discoveryOrder_ownership in Hl.
    rewrite occurrences_nil in Hl. fold (declaredNames ms) in Hl.
    destruct (decide (2 ≤ occurrences chart (declaredNames ms))); [done|lia].
Qed.

Lemma crossChecks_grounded rt ms index mp ip :
  Forall (grounded ms index mp ip) (crossChecks rt index (declaredSet ms) mp ip).
Proof.
  unfold crossChecks. repeat apply Forall_app_2.
  - case_decide as Hsize; [|constructor].
    repeat constructor. by apply map_size_empty_iff.
  - apply Forall_forall. intros l Hl. rewrite missingFromMaintainers_lines in Hl.
    apply list_elem_of_fmap in Hl as (c & -> & Hc).
    rewrite elem_of_elements, elem_of_difference, elem_of_declaredSet in Hc.
    by destruct Hc.
  - apply Forall_forall. intros l Hl. rewrite missingFromIndex_lines in Hl.
    apply list_elem_of_fmap in Hl as (c & -> & Hc).
    rewrite elem_of_elements, elem_of_difference, elem_of_declaredSet in Hc.
    by destruct Hc.
Qed.

(** X9. No line is printed without a cause in the documents.  On decoded
    documents every line of the run is backed by what it reports: an
    InvalidCrdIssueFlag line by a declaration of that name ending in [-crd]
    with generateIssue true, a DuplicateLabel line by a declaration of that
    name holding the label at least twice, a DuplicateChartOwnership line by
    a name declared at least twice, the EmptyIndex line by an index without
    entries, a MissingFromMaintainers line by an index name that is not
    declared, a MissingFromIndex line by a declared name that the index
    lacks; and the paths shown are those of the two files. *)
Theorem X9_no_line_without_cause rt disk mp ip ms index :
  decodeMaintainersFile disk mp = (records ms, None) →
  decodeIndexFile disk ip = (Some index, None) →
  Forall (grounded ms index mp ip) (stdout (validateMaintainersFile rt disk mp ip)).
Proof.
  intros Hm Hi.
  rewrite (validateMaintainersFile_records rt disk mp ip ms) by (by rewrite Hm).
  rewrite Hm, Hi. cbn [fst snd printErr app stdout].
  apply Forall_app_2; [apply discoveryOrder_grounded|apply crossChecks_grounded].
Qed.

Lemma X9_witness :
  Forall (grounded untidy (indexOf ["foo"; "zeta"])
            "./maintainers.yaml" "./charts/index.yaml")
    (stdout (validateMaintainersFile backwards
               (diskOf (Parsed (records untidy)) (Parsed (indexOf ["foo"; "zeta"])))
               "./maintainers.yaml" "./charts/index.yaml")).
Proof.
  apply (X9_no_line_without_cause backwards
           (diskOf (Parsed (records untidy)) (Parsed (indexOf ["foo"; "zeta"])))
           "./maintainers.yaml" "./charts/index.yaml" untidy
           (indexOf ["foo"; "zeta"])); reflexivity.
Defined.

(** ** Reordering the registry *)

Lemma occurrences_count_occ {A} {dec : EqDecision A} (x : A) (l : list A) :
  occurrences x l = count_occ (decide_rel (=)) l x.
Proof.
  induction l as [|y l IH]; [done|].
  rewrite occurrences_cons, IH. cbn [count_occ]. unfold decide_rel, decide.
  by destruct (dec y x).
Qed.

Lemma Permutation_occurrences `{EqDecision A} (l k : list A) :
  (∀ x, occurrences x l = occurrences x k) → l ≡ₚ k.
Proof.
  intros H. apply (Permutation_count_occ (decide_rel (=))). intros x.
  by rewrite <- !occurrences_count_occ.
Qed.

(** Up to order, the per-chart lines depend on the declarations only as a
    multiset. *)
Lemma discoveryOrder_Permutation cs cs' :
  cs ≡ₚ cs' → discoveryOrder [] cs ≡ₚ discoveryOrder [] cs'.
Proof.
  intros Hp. apply Permutation_occurrences. intros l.
  destruct l as [e|chart flag|chart label|chart|p|chart p|chart p].
  4: { rewrite !discoveryOrder_ownership, !occurrences_nil.
       by rewrite (occurrences_Permutation chart _ _
                     (fmap_Permutation Chart.Name _ _ Hp)). }
  all: rewrite <- (occurrences_ofKind _ (discoveryOrder [] cs)),
         <- (occurrences_ofKind _ (discoveryOrder [] cs')); cbn [kind].
  - by rewrite !ofKind_discoveryOrder_other by (by intros []).
  - rewrite !ofKind_discoveryOrder_crd. apply occurrences_Permutation.
    by apply Permutation_flat_map.
  - rewrite !ofKind_discoveryOrder_labels. apply occurrences_Permutation.
    by apply Permutation_flat_map.
  - by rewrite !ofKind_discoveryOrder_other by (by intros []).
  - by rewrite !ofKind_discoveryOrder_other by (by intros []).
  - by rewrite !ofKind_discoveryOrder_other by (by intros []).
Qed.

(** X10. Up to the order of the lines, the report depends on the registry
    only through its declarations taken together: moving a chart to another
    maintainer, or reordering maintainers or charts, changes at most the
    order in which the same lines are printed. *)
Theorem X10_report_invariant_under_regrouping rt rt' disk disk' mp ip ms ms' :
  (decodeMaintainersFile disk mp).1 = records ms →
  (decodeMaintainersFile disk' mp).1 = records ms' →
  (decodeMaintainersFile disk mp).2 = (decodeMaintainersFile disk' mp).2 →
  decodeIndexFile disk ip = decodeIndexFile disk' ip →
  declarations ms ≡ₚ declarations ms' →
  stdout (validateMaintainersFile rt disk mp ip)
  ≡ₚ stdout (validateMaintainersFile rt' disk' mp ip).
Proof.
  intros Hm Hm' He Hi Hp.
  rewrite (validateMaintainersFile_records rt disk mp ip ms Hm).
  rewrite (validateMaintainersFile_records rt' disk' mp ip ms' Hm').
  rewrite He, Hi.
  assert (declaredSet ms = declaredSet ms') as Hset.
  { unfold declaredSet, declaredNames. apply set_eq. intros c.
    by rewrite !elem_of_list_to_set, Hp. }
  destruct (decodeIndexFile disk' ip).1 as [index|]; cbn [stdout].
  - rewrite (discoveryOrder_Permutation _ _ Hp), Hset.
    by rewrite (crossChecks_Permutation rt' rt).
  - by rewrite (discoveryOrder_Permutation _ _ Hp).
Qed.

Lemma X10_witness :
  stdout (validateMaintainersFile forwards
            (diskOf (Parsed (records untidy)) (Parsed (indexOf ["foo"; "zeta"])))
            "./maintainers.yaml" "./charts/index.yaml")
  ≡ₚ stdout (validateMaintainersFile backwards
               (diskOf (Parsed (records regrouped)) (Parsed (indexOf ["foo"; "zeta"])))
               "./maintainers.yaml" "./charts/index.yaml").
Proof.
  apply (X10_report_invariant_under_regrouping forwards backwards
           (diskOf (Parsed (records untidy)) (Parsed (indexOf ["foo"; "zeta"])))
           (diskOf (Parsed (records regrouped)) (Parsed (indexOf ["foo"; "zeta"])))
           "./maintainers.yaml" "./charts/index.yaml" untidy regrouped);
    try reflexivity.
  unfold regrouped, declarations at 2. cbn [flat_map Maintainer.Charts].
  rewrite app_nil_r. symmetry. apply reverse_Permutation.
Defined.

(** ** The decoders, call by call *)

Lemma decodeYAMLFile_calls {A} env (unmarshal : Sys.Unmarshal A) r target :
  (Sys.decodeYAMLFile env unmarshal r target).2 = [Sys.ReadAll r].
Proof.
  unfold Sys.decodeYAMLFile. destruct (Sys.io_ReadAll env r); [done|].
  by destruct (unmarshal _ _).
Qed.

Lemma disciplined_app held calls calls' :
  Sys.disciplined held calls = true →
  Sys.disciplined None calls' = true →
  Sys.disciplined held (calls ++ calls') = true.
Proof.
  revert held. induction calls as [|[path file|file|file] calls IH];
    intros held; cbn [app Sys.disciplined]; rewrite ?andb_true_iff.
  - intros ->%bool_decide_eq_true. done.
  - intros [? ?] ?. split; [done|by apply IH].
  - intros [? ?] ?. split; [done|by apply IH].
  - intros [? ?] ?. split; [done|by apply IH].
Qed.

Lemma decodeMaintainersFile_disciplined env path :
  Sys.disciplined None (Sys.decodeMaintainersFile env path).2 = true.
Proof.
  unfold Sys.decodeMaintainersFile. destruct (Sys.os_Open env path) as [e|file].
  - done.
  - pose proof (decodeYAMLFile_calls env (Sys.yaml_Unmarshal_Maintainers env) file [])
      as Hc.
    destruct (Sys.decodeYAMLFile _ _ _ _) as [[ms err] calls]. cbn [snd] in Hc.
    subst calls. destruct err; cbn; by rewrite !bool_decide_eq_true_2.
Qed.

Lemma decodeIndexFile_disciplined env path :
  Sys.disciplined None (Sys.decodeIndexFile env path).2 = true.
Proof.
  unfold Sys.decodeIndexFile. destruct (Sys.os_Open env path) as [e|file].
  - done.
  - pose proof (decodeYAMLFile_calls env (Sys.yaml_Unmarshal_IndexFile env) file
                  (IndexFile.mk ∅)) as Hc.
    destruct (Sys.decodeYAMLFile _ _ _ _) as [[index err] calls]. cbn [snd] in Hc.
    subst calls. destruct err; cbn; by rewrite !bool_decide_eq_true_2.
Qed.

(** X11. Each decoder returns either a value or an error, never both and
    never neither: with an error the slice, or the pointer, is nil, also
    when [yaml.Unmarshal] had filled part of the target before it failed;
    without one the value is what [Unmarshal] left in the target.  The error
    is that of the first of [os.Open], [io.ReadAll] and [yaml.Unmarshal] to
    fail.  These are the outcomes the documents of a [Disk] stand for. *)
Theorem X11_decoders_return_value_or_error env path :
  (match Sys.decodeMaintainersFile env path with
   | (maintainers, Some err, _) =>
       maintainers = []
       ∧ (Sys.os_Open env path = inl err
          ∨ ∃ file, Sys.os_Open env path = inr file
              ∧ (Sys.io_ReadAll env file = inl err
                 ∨ ∃ data partial, Sys.io_ReadAll env file = inr data
                     ∧ Sys.yaml_Unmarshal_Maintainers env data [] = (partial, Some err)))
   | (maintainers, None, _) =>
       ∃ file data, Sys.os_Open env path = inr file
         ∧ Sys.io_ReadAll env file = inr data
         ∧ Sys.yaml_Unmarshal_Maintainers env data [] = (maintainers, None)
   end)
  ∧ (match Sys.decodeIndexFile env path with
     | (index, Some err, _) =>
         index = None
         ∧ (Sys.os_Open env path = inl err
            ∨ ∃ file, Sys.os_Open env path = inr file
                ∧ (Sys.io_ReadAll env file = inl err
                   ∨ ∃ data partial, Sys.io_ReadAll env file = inr data
                       ∧ Sys.yaml_Unmarshal_IndexFile env data (IndexFile.mk ∅)
                         = (partial, Some err)))
     | (index, None, _) =>
         ∃ file data decoded, index = Some decoded
           ∧ Sys.os_Open env path = inr file
           ∧ Sys.io_ReadAll env file = inr data
           ∧ Sys.yaml_Unmarshal_IndexFile env data (IndexFile.mk ∅) = (decoded, None)
     end)
  ∧ decodeMaintainersFile (Sys.disk env) path = (Sys.decodeMaintainersFile env path).1
  ∧ decodeIndexFile (Sys.disk env) path = (Sys.decodeIndexFile env path).1.
Proof.
  repeat split.
  - unfold Sys.decodeMaintainersFile, Sys.decodeYAMLFile.
    destruct (Sys.os_Open env path) as [e|file] eqn:Eo; [split; [done|by left]|].
    destruct (Sys.io_ReadAll env file) as [e|data] eqn:Er.
    { split; [done|]. right. exists file. split; [done|by left]. }
    destruct (Sys.yaml_Unmarshal_Maintainers env data []) as [ms [e|]] eqn:Em.
    + split; [done|]. right. exists file. split; [done|]. right. by exists data, ms.
    + by exists file, data.
  - unfold Sys.decodeIndexFile, Sys.decodeYAMLFile.
    destruct (Sys.os_Open env path) as [e|file] eqn:Eo; [split; [done|by left]|].
    destruct (Sys.io_ReadAll env file) as [e|data] eqn:Er.
    { split; [done|]. right. exists file. split; [done|by left]. }
    destruct (Sys.yaml_Unmarshal_IndexFile env data (IndexFile.mk ∅))
      as [index [e|]] eqn:Ei.
    + split; [done|]. right. exists file. split; [done|]. right. by exists data, index.
    + by exists file, data, index.
  - unfold decodeMaintainersFile, Sys.disk. cbn [maintainersAt].
    unfold Sys.decodeMaintainersFile, Sys.decodeYAMLFile.
    destruct (Sys.os_Open env path) as [e|file]; [done|].
    destruct (Sys.io_ReadAll env file) as [e|data]; [done|].
    by destruct (Sys.yaml_Unmarshal_Maintainers env data []) as [ms [e|]].
  - unfold decodeIndexFile, Sys.disk. cbn [indexAt].
    unfold Sys.decodeIndexFile, Sys.decodeYAMLFile.
    destruct (Sys.os_Open env path) as [e|file]; [done|].
    destruct (Sys.io_ReadAll env file) as [e|data]; [done|].
    by destruct (Sys.yaml_Unmarshal_IndexFile env data (IndexFile.mk ∅))
      as [index [e|]].
Qed.

(** X12. A run keeps to the discipline of files: it opens a file only while
    it holds none, reads it while it holds it, closes it before it opens
    the next, and holds none when it returns or panics.  When a nil entry
    stops the walk of the maintainers the index file is not opened at all. *)
Theorem X12_files_are_closed env mp ip :
  Sys.disciplined None (Sys.calls env mp ip) = true
  ∧ (None ∈ (Sys.decodeMaintainersFile env mp).1.1 →
     Sys.calls env mp ip = (Sys.decodeMaintainersFile env mp).2).
Proof.
  unfold Sys.calls.
  pose proof (decodeMaintainersFile_disciplined env mp) as H1.
  pose proof (decodeIndexFile_disciplined env ip) as H2.
  destruct (Sys.decodeMaintainersFile env mp) as [[maintainers err] calls1].
  cbn [fst snd] in *.
  pose proof (rangeMaintainers_panics maintainers
                {| maintainersCharts := ∅; duplicateCharts := ∅ |}) as Hp.
  destruct (rangeMaintainers maintainers _).2 as [seen|].
  - split; [by apply disciplined_app|].
    intros Hnil. apply Hp in Hnil. discriminate.
  - done.
Qed.

Lemma X12_witness :
  Sys.calls Sys.sample "./maintainers.yaml" "./charts/index.yaml"
  = [ Sys.Open "./maintainers.yaml" (Some 3); Sys.ReadAll 3; Sys.Close 3;
      Sys.Open "./charts/index.yaml" (Some 4); Sys.ReadAll 4; Sys.Close 4 ]
  ∧ Sys.disciplined None
      (Sys.calls Sys.sample "./maintainers.yaml" "./charts/index.yaml") = true.
Proof.
  split; [reflexivity|].
  apply (X12_files_are_closed Sys.sample "./maintainers.yaml" "./charts/index.yaml").
Defined.
